(** * Weight quantization engine of [modules/model_quant_nncf.py]

    A shallow embedding of the post-training weight quantizer: the
    per-channel scale / zero-point computation, the nibble packer, the four
    weight decompressors, the layer pass [nncf_compress_layer], the
    traversal [apply_nncf_to_module], the quantizer of the loading path and
    the configuration, followed by the properties established about them.

    Modelling conventions.
    - A tensor is a shape together with its elements in row-major order.
    - Floating-point elements are rationals and arithmetic on them is exact:
      binary32 rounding, infinities and NaN are not represented.  Every
      concrete evaluation below uses inputs on which all intermediate values
      are small dyadic rationals, so that the binary32 run is exact as well.
    - Integer elements are [Z] with the wrap-around of their dtype written
      out at each operation that can leave the range.
    - Device placement ([.to(device)]) moves no value and is left out.
    - Python exceptions are the error constructors of [result]. *)

From Stdlib Require Import String Ascii ZArith QArith Qround Qabs Qminmax List Bool Lia Lqa.
Import ListNotations.

Local Open Scope Z_scope.

(** ** Exceptions *)

Inductive result (A : Type) : Type :=
| Ok (a : A)
| ValueError (msg : string)
| RuntimeError (msg : string).

Arguments Ok {A} a.
Arguments ValueError {A} msg.
Arguments RuntimeError {A} msg.

Definition bind {A B : Type} (r : result A) (k : A -> result B) : result B :=
  match r with
  | Ok a => k a
  | ValueError m => ValueError m
  | RuntimeError m => RuntimeError m
  end.

Notation "x <- e ;; k" := (bind e (fun x => k))
  (at level 61, e at next level, right associativity).

Definition result_map {A B : Type} (f : A -> B) (r : result A) : result B :=
  x <- r ;; Ok (f x).

Definition is_Ok {A : Type} (r : result A) : bool :=
  match r with Ok _ => true | _ => false end.

Definition is_ValueError {A : Type} (r : result A) : bool :=
  match r with ValueError _ => true | _ => false end.

(** ** Tensors *)

Inductive float_dtype : Set := float32 | float16 | bfloat16.
Inductive int_dtype : Set := int8 | uint8 | int32.

Record FloatTensor : Type := mkFloat {
  fdtype : float_dtype;
  fshape : list nat;
  fdata : list Q
}.

Record IntTensor : Type := mkInt {
  idtype : int_dtype;
  ishape : list nat;
  idata : list Z
}.

Inductive Tensor : Type :=
| TFloat (t : FloatTensor)
| TInt (t : IntTensor).

Definition is_floating_point (t : Tensor) : bool :=
  match t with TFloat _ => true | TInt _ => false end.

Definition shape (t : Tensor) : list nat :=
  match t with TFloat f => fshape f | TInt i => ishape i end.

Definition ndim (t : Tensor) : nat := length (shape t).

Definition numel (s : list nat) : nat := fold_right Nat.mul 1%nat s.

(** *** Integer dtypes *)

Definition dtype_min (dt : int_dtype) : Z :=
  match dt with int8 => -128 | uint8 => 0 | int32 => -2147483648 end.

Definition dtype_max (dt : int_dtype) : Z :=
  match dt with int8 => 127 | uint8 => 255 | int32 => 2147483647 end.

(** Two's-complement wrap-around of integer arithmetic and of
    integer-to-integer casts. *)
Definition wrap (dt : int_dtype) (z : Z) : Z :=
  match dt with
  | uint8 => z mod 256
  | int8 => (z + 128) mod 256 - 128
  | int32 => (z + 2147483648) mod 4294967296 - 2147483648
  end.

Definition clipZ (z lo hi : Z) : Z := Z.min (Z.max z lo) hi.

(** [float -> int] casts truncate toward zero.  Torch leaves the result of
    an out-of-range cast unspecified; the model saturates there. *)
Definition Qtrunc (x : Q) : Z :=
  if Qle_bool 0 x then Qfloor x else Qceiling x.

Definition float_to_int (dt : int_dtype) (x : Q) : Z :=
  clipZ (Qtrunc x) (dtype_min dt) (dtype_max dt).

(** [tensor.to(dtype=dt)] for an integer target dtype. *)
Definition to_int (dt : int_dtype) (t : Tensor) : IntTensor :=
  match t with
  | TFloat f => mkInt dt (fshape f) (map (float_to_int dt) (fdata f))
  | TInt i => mkInt dt (ishape i) (map (wrap dt) (idata i))
  end.

(** [tensor.to(dtype=dt)] for a floating target dtype. *)
Definition to_float (dt : float_dtype) (t : Tensor) : FloatTensor :=
  match t with
  | TFloat f => mkFloat dt (fshape f) (fdata f)
  | TInt i => mkFloat dt (ishape i) (map inject_Z (idata i))
  end.

(** [torch.any((weight < lo) | (weight > hi))] *)
Definition any_outside (lo hi : Z) (t : Tensor) : bool :=
  match t with
  | TFloat f =>
      existsb (fun x => negb (Qle_bool (inject_Z lo) x) || negb (Qle_bool x (inject_Z hi)))
              (fdata f)
  | TInt i => existsb (fun z => (z <? lo) || (z >? hi)) (idata i)
  end.

(** [tensor.reshape(s)] *)
Definition reshape_int (s : list nat) (t : IntTensor) : result IntTensor :=
  if Nat.eqb (numel s) (length (idata t))
  then Ok (mkInt (idtype t) s (idata t))
  else RuntimeError "shape is invalid for input size".

Definition reshape_float (s : list nat) (t : FloatTensor) : result FloatTensor :=
  if Nat.eqb (numel s) (length (fdata t))
  then Ok (mkFloat (fdtype t) s (fdata t))
  else RuntimeError "shape is invalid for input size".

(** ** Bit packer *)

(** The rows of [tensor.reshape(-1, 2)]: [None] when the elements do not
    split into pairs. *)
Fixpoint pairs (l : list Z) : option (list (Z * Z)) :=
  match l with
  | [] => Some []
  | lo :: hi :: rest =>
      match pairs rest with
      | Some ps => Some ((lo, hi) :: ps)
      | None => None
      end
  | _ :: [] => None
  end.

(** [bitwise_and(packed[..., ::2], 15) | packed[..., 1::2] << 4] on one row;
    the shift stays in uint8. *)
Definition pack_byte (p : Z * Z) : Z :=
  Z.lor (Z.land (fst p) 15) (wrap uint8 (Z.shiftl (snd p) 4)).

Definition pack_uint4 (tensor : IntTensor) : result IntTensor :=
  match idtype tensor with
  | uint8 =>
      match idata tensor with
      | [] => RuntimeError "cannot reshape tensor of 0 elements into shape [-1, 2]"
      | _ =>
          match pairs (idata tensor) with
          | None => RuntimeError "shape [-1, 2] is invalid for input size"
          | Some ps => Ok (mkInt uint8 [length ps; 1%nat] (map pack_byte ps))
          end
      end
  | _ => RuntimeError "Invalid tensor dtype. torch.uint8 type is supported."
  end.

Definition pack_int4 (tensor : IntTensor) : result IntTensor :=
  match idtype tensor with
  | int8 =>
      let tensor := mkInt int8 (ishape tensor) (map (fun v => wrap int8 (v + 8)) (idata tensor)) in
      pack_uint4 (to_int uint8 (TInt tensor))
  | _ => RuntimeError "Invalid tensor dtype. torch.int8 type is supported."
  end.

(** [torch.stack((p & 15, p >> 4), dim=-1)] *)
Definition unpack_uint4 (packed_tensor : IntTensor) : IntTensor :=
  mkInt (idtype packed_tensor) (ishape packed_tensor ++ [2%nat])
        (flat_map (fun p => [Z.land p 15; Z.shiftr p 4]) (idata packed_tensor)).

Definition unpack_int4 (packed_tensor : IntTensor) : IntTensor :=
  let t := unpack_uint4 packed_tensor in
  let t := to_int int8 (TInt t) in
  mkInt int8 (ishape t) (map (fun v => wrap int8 (v - 8)) (idata t)).

(** ** Indexing, reductions and broadcasting *)

(** Multi-index of the flat position [k] in a row-major tensor of shape [s]. *)
Fixpoint unravel (s : list nat) (k : nat) : list nat :=
  match s with
  | [] => []
  | _ :: r => (k / numel r)%nat :: unravel r (k mod numel r)%nat
  end.

Fixpoint ravel (s idx : list nat) : nat :=
  match s, idx with
  | _ :: r, i :: j => (i * numel r + ravel r j)%nat
  | _, _ => 0%nat
  end.

(** Shape left by a reduction over [axes] with [keepdims=True]: the reduced
    axes have size 1.  [i] is the position of the head of [s]. *)
Fixpoint keepdims_from (i : nat) (axes : list nat) (s : list nat) : list nat :=
  match s with
  | [] => []
  | d :: r => (if existsb (Nat.eqb i) axes then 1%nat else d) :: keepdims_from (S i) axes r
  end.

Definition keepdims_shape (axes s : list nat) : list nat := keepdims_from 0 axes s.

(** Broadcasting reads position 0 along every axis of size 1. *)
Fixpoint bcast_index (small idx : list nat) : list nat :=
  match small, idx with
  | d :: r, i :: j => (if Nat.eqb d 1 then 0%nat else i) :: bcast_index r j
  | _, _ => []
  end.

(** Flat position, in a tensor of shape [small], of the element that the
    flat position [k] of a tensor of shape [s] is combined with. *)
Definition channel_of (s small : list nat) (k : nat) : nat :=
  ravel small (bcast_index small (unravel s k)).

Fixpoint broadcastable (small s : list nat) : bool :=
  match small, s with
  | [], [] => true
  | d :: r, e :: q => (Nat.eqb d 1 || Nat.eqb d e) && broadcastable r q
  | _, _ => false
  end.

Definition shape_eqb (a b : list nat) : bool :=
  if list_eq_dec Nat.eq_dec a b then true else false.

(** Elements of [t] seen at shape [s] by an operation whose other operand
    has shape [s]. *)
Definition expand_to (s : list nat) (t : FloatTensor) : result (list Q) :=
  if shape_eqb s (fshape t) then Ok (fdata t)
  else if broadcastable (fshape t) s
  then Ok (map (fun k => nth (channel_of s (fshape t) k) (fdata t) 0%Q) (seq 0 (numel s)))
  else RuntimeError "The size of tensor a must match the size of tensor b".

Definition zip_with {A B C : Type} (f : A -> B -> C) (l : list A) (m : list B) : list C :=
  map (fun p => f (fst p) (snd p)) (combine l m).

(** [a op b], the shape of [a] being the broadcast shape. *)
Definition binop (f : Q -> Q -> Q) (a b : FloatTensor) : result FloatTensor :=
  b' <- expand_to (fshape a) b ;;
  Ok (mkFloat (fdtype a) (fshape a) (zip_with f (fdata a) b')).

Definition pointwise (f : Q -> Q) (a : FloatTensor) : FloatTensor :=
  mkFloat (fdtype a) (fshape a) (map f (fdata a)).

Definition Qlist_min (l : list Q) : Q :=
  match l with [] => 0%Q | x :: r => fold_left Qmin r x end.

Definition Qlist_max (l : list Q) : Q :=
  match l with [] => 0%Q | x :: r => fold_left Qmax r x end.

(** The elements of [t] reduced into position [c] of the statistics tensor
    of shape [small]. *)
Definition channel_values (t : FloatTensor) (small : list nat) (c : nat) : list Q :=
  map (fun k => nth k (fdata t) 0%Q)
      (filter (fun k => Nat.eqb (channel_of (fshape t) small k) c)
              (seq 0 (numel (fshape t)))).

Definition reduce (agg : list Q -> Q) (t : FloatTensor) (axes : list nat)
  : result FloatTensor :=
  if existsb (fun a => Nat.eqb (nth a (fshape t) 1%nat) 0) axes
  then RuntimeError "Expected reduction dim to have non-zero size"
  else
    let small := keepdims_shape axes (fshape t) in
    Ok (mkFloat (fdtype t) small
                (map (fun c => agg (channel_values t small c)) (seq 0 (numel small)))).

(** [torch.amin(t, dim=axes, keepdims=True)] *)
Definition amin := reduce Qlist_min.

(** [torch.amax(t, dim=axes, keepdims=True)] *)
Definition amax := reduce Qlist_max.

(** [torch.round]: to nearest, ties to even. *)
Definition round_half_even (x : Q) : Z :=
  let f := Qfloor x in
  match Qcompare (x - inject_Z f) (1 # 2) with
  | Lt => f
  | Gt => f + 1
  | Eq => if Z.even f then f else f + 1
  end.

Definition clipQ (x : Q) (lo hi : Z) : Q :=
  Qmin (Qmax x (inject_Z lo)) (inject_Z hi).

(** [torch.finfo(torch.float32).eps] *)
Definition eps : Q := 1 # 8388608.

(** [torch.where(torch.abs(scale) < eps, eps, scale)] on one element. *)
Definition floor_eps (s : Q) : Q :=
  if Qle_bool eps (Qabs s) then s else eps.

(** ** Dequantization formulas *)

Definition decompress_asymmetric (input : Tensor) (scale : FloatTensor) (zero_point : Tensor)
  : result FloatTensor :=
  let input := to_float (fdtype scale) input in
  let zero_point := to_float (fdtype scale) zero_point in
  d <- binop Qminus input zero_point ;;
  binop Qmult d scale.

Definition decompress_symmetric (input : Tensor) (scale : FloatTensor) : result FloatTensor :=
  let input := to_float (fdtype scale) input in
  binop Qmult input scale.

(** [result.to(dtype=result_dtype)]; [None] leaves the dtype as it is. *)
Definition to_result_dtype (result_dtype : option float_dtype) (t : FloatTensor) : FloatTensor :=
  match result_dtype with
  | Some dt => to_float dt (TFloat t)
  | None => t
  end.

(** The bitwise operations of the unpacker are not defined on floating
    tensors. *)
Definition packed_bytes (x_weight : Tensor) : result IntTensor :=
  match x_weight with
  | TInt i => Ok i
  | TFloat _ => RuntimeError "bitwise_and not implemented for Float"
  end.

(** ** The four decompressors

    [forward] is the tensor the hook computes; it is stored into [x.weight]
    unless [return_decompressed_only] is set (see [run_pre_forward]). *)

Module INT8AsymmetricWeightsDecompressor.
Record t : Type := mk {
  scale : FloatTensor;
  zero_point : IntTensor;
  result_dtype : option float_dtype
}.

Definition num_bits : Z := 8.

Definition pack_weight (weight : Tensor) : result IntTensor :=
  if is_floating_point weight
  then ValueError "Invalid weight dtype. Integer types are supported."
  else if any_outside 0 255 weight
  then ValueError "Weight values are not in [0, 255]."
  else Ok (to_int uint8 weight).

Definition init (scale : FloatTensor) (zero_point : Tensor)
           (result_dtype : option float_dtype) : result t :=
  zp <- pack_weight zero_point ;;
  Ok (mk scale zp result_dtype).

Definition forward (self : t) (x_weight : Tensor) : result FloatTensor :=
  r <- decompress_asymmetric x_weight (scale self) (TInt (zero_point self)) ;;
  Ok (to_result_dtype (result_dtype self) r).
End INT8AsymmetricWeightsDecompressor.

Module INT8SymmetricWeightsDecompressor.
Record t : Type := mk {
  scale : FloatTensor;
  result_dtype : option float_dtype
}.

Definition num_bits : Z := 8.

Definition pack_weight (weight : Tensor) : result IntTensor :=
  if any_outside (-128) 127 weight
  then ValueError "Weight values are not in [-128, 127]."
  else Ok (to_int int8 weight).

Definition init (scale : FloatTensor) (result_dtype : option float_dtype) : result t :=
  Ok (mk scale result_dtype).

Definition forward (self : t) (x_weight : Tensor) : result FloatTensor :=
  r <- decompress_symmetric x_weight (scale self) ;;
  Ok (to_result_dtype (result_dtype self) r).
End INT8SymmetricWeightsDecompressor.

Module INT4AsymmetricWeightsDecompressor.
Record t : Type := mk {
  scale : FloatTensor;
  zero_point_shape : list nat;
  zero_point : IntTensor;
  compressed_weight_shape : list nat;
  result_shape : option (list nat);
  result_dtype : option float_dtype
}.

Definition num_bits : Z := 4.

Definition pack_weight (weight : Tensor) : result IntTensor :=
  if any_outside 0 15 weight
  then ValueError "Weight values are not in [0, 15]."
  else pack_uint4 (to_int uint8 weight).

Definition init (scale : FloatTensor) (zero_point : Tensor)
           (compressed_weight_shape : list nat) (result_shape : option (list nat))
           (result_dtype : option float_dtype) : result t :=
  zp <- pack_weight zero_point ;;
  Ok (mk scale (shape zero_point) zp compressed_weight_shape result_shape result_dtype).

Definition forward (self : t) (x_weight : Tensor) : result FloatTensor :=
  packed <- packed_bytes x_weight ;;
  r <- reshape_int (compressed_weight_shape self) (unpack_uint4 packed) ;;
  zp <- reshape_int (zero_point_shape self) (unpack_uint4 (zero_point self)) ;;
  r <- decompress_asymmetric (TInt r) (scale self) (TInt zp) ;;
  r <- match result_shape self with
       | Some s => reshape_float s r
       | None => Ok r
       end ;;
  Ok (to_result_dtype (result_dtype self) r).
End INT4AsymmetricWeightsDecompressor.

Module INT4SymmetricWeightsDecompressor.
Record t : Type := mk {
  scale : FloatTensor;
  compressed_weight_shape : list nat;
  result_shape : option (list nat);
  result_dtype : option float_dtype
}.

Definition num_bits : Z := 4.

Definition pack_weight (weight : Tensor) : result IntTensor :=
  if is_floating_point weight
  then ValueError "Invalid weight dtype. Integer types are supported."
  else if any_outside (-8) 7 weight
  then ValueError "Tensor values are not in [-8, 7]."
  else pack_int4 (to_int int8 weight).

Definition init (scale : FloatTensor) (compressed_weight_shape : list nat)
           (result_shape : option (list nat)) (result_dtype : option float_dtype)
  : result t :=
  Ok (mk scale compressed_weight_shape result_shape result_dtype).

Definition forward (self : t) (x_weight : Tensor) : result FloatTensor :=
  packed <- packed_bytes x_weight ;;
  r <- reshape_int (compressed_weight_shape self) (unpack_int4 packed) ;;
  r <- decompress_symmetric (TInt r) (scale self) ;;
  r <- match result_shape self with
       | Some s => reshape_float s r
       | None => Ok r
       end ;;
  Ok (to_result_dtype (result_dtype self) r).
End INT4SymmetricWeightsDecompressor.

Inductive Decompressor : Type :=
| INT8Asymmetric (d : INT8AsymmetricWeightsDecompressor.t)
| INT8Symmetric (d : INT8SymmetricWeightsDecompressor.t)
| INT4Asymmetric (d : INT4AsymmetricWeightsDecompressor.t)
| INT4Symmetric (d : INT4SymmetricWeightsDecompressor.t).

Definition pack_weight (d : Decompressor) (weight : Tensor) : result IntTensor :=
  match d with
  | INT8Asymmetric _ => INT8AsymmetricWeightsDecompressor.pack_weight weight
  | INT8Symmetric _ => INT8SymmetricWeightsDecompressor.pack_weight weight
  | INT4Asymmetric _ => INT4AsymmetricWeightsDecompressor.pack_weight weight
  | INT4Symmetric _ => INT4SymmetricWeightsDecompressor.pack_weight weight
  end.

Definition forward (d : Decompressor) (x_weight : Tensor) : result FloatTensor :=
  match d with
  | INT8Asymmetric d => INT8AsymmetricWeightsDecompressor.forward d x_weight
  | INT8Symmetric d => INT8SymmetricWeightsDecompressor.forward d x_weight
  | INT4Asymmetric d => INT4AsymmetricWeightsDecompressor.forward d x_weight
  | INT4Symmetric d => INT4SymmetricWeightsDecompressor.forward d x_weight
  end.

Definition decompressor_scale (d : Decompressor) : FloatTensor :=
  match d with
  | INT8Asymmetric d => INT8AsymmetricWeightsDecompressor.scale d
  | INT8Symmetric d => INT8SymmetricWeightsDecompressor.scale d
  | INT4Asymmetric d => INT4AsymmetricWeightsDecompressor.scale d
  | INT4Symmetric d => INT4SymmetricWeightsDecompressor.scale d
  end.

(** ** Layers *)

(** A module of the graph as the pass sees it: its class name, its [weight]
    parameter, its other parameters and the operations registered to run
    before [forward].  [register_pre_forward_operation] appends. *)
Record Layer : Type := mkLayer {
  class_name : string;
  weight : Tensor;
  weight_requires_grad : bool;
  other_parameters : list (string * Tensor);
  pre_forward_operations : list Decompressor
}.

Definition linear_types : list string := ["NNCFLinear"; "Linear"]%string.
Definition conv_types : list string :=
  ["NNCFConv1d"; "NNCFConv2d"; "NNCFConv3d"; "Conv1d"; "Conv2d"; "Conv3d"]%string.
Definition conv_transpose_types : list string :=
  ["NNCFConvTranspose1d"; "NNCFConvTranspose2d"; "NNCFConvTranspose3d";
   "ConvTranspose1d"; "ConvTranspose2d"; "ConvTranspose3d"]%string.

Definition allowed_types : list string :=
  linear_types ++ conv_types ++ conv_transpose_types.

Definition in_types (name : string) (types : list string) : bool :=
  existsb (String.eqb name) types.

(** [[i for i in range(n) if i != skip]] *)
Definition axes_except (skip n : nat) : list nat :=
  filter (fun i => negb (Nat.eqb i skip)) (seq 0 n).

(** ** Quantization parameters

    [num_bits] is a Python integer; the embedding reads [2 ** n] as the
    integer power, which is what Python computes for [n >= 0]. *)

(** Lines 69-80: the asymmetric branch. *)
Definition asym_params (weight : FloatTensor) (reduction_axes : list nat) (num_bits : Z)
  : result (FloatTensor * IntTensor) :=
  let level_low := 0 in
  let level_high := 2 ^ num_bits - 1 in
  min_values <- amin weight reduction_axes ;;
  max_values <- amax weight reduction_axes ;;
  let levels := level_high - level_low + 1 in
  d <- binop Qminus max_values min_values ;;
  let scale := to_float float32 (TFloat (pointwise (fun x => x / inject_Z (levels - 1))%Q d)) in
  let scale := pointwise floor_eps scale in
  q <- binop Qdiv min_values scale ;;
  let zero_point :=
    pointwise (fun x => inject_Z level_low - inject_Z (round_half_even x))%Q q in
  let zero_point := to_int int32 (TFloat zero_point) in
  let zero_point :=
    mkInt int32 (ishape zero_point)
          (map (fun z => clipZ z level_low level_high) (idata zero_point)) in
  Ok (scale, zero_point).

(** Lines 84-85: [w_abs_min] and [w_max]. *)
Definition sym_stats (weight : FloatTensor) (reduction_axes : list nat)
  : result (FloatTensor * FloatTensor) :=
  m <- amin weight reduction_axes ;;
  let w_abs_min := pointwise Qabs m in
  w_max <- amax weight reduction_axes ;;
  Ok (w_abs_min, w_max).

(** [torch.where(w_abs_min >= w_max, w_abs_min, -w_max)] on one channel. *)
Definition sym_extremum (w_abs_min w_max : Q) : Q :=
  if Qle_bool w_max w_abs_min then w_abs_min else (- w_max)%Q.

(** Lines 82-92: the symmetric branch. *)
Definition sym_params (weight : FloatTensor) (reduction_axes : list nat) (num_bits : Z)
  : result FloatTensor :=
  let factor := 2 ^ (num_bits - 1) in
  st <- sym_stats weight reduction_axes ;;
  scale <- binop sym_extremum (fst st) (snd st) ;;
  let scale := pointwise (fun x => x / inject_Z factor)%Q scale in
  let scale := pointwise floor_eps scale in
  Ok scale.

Definition quant_dtype (is_asym_mode : bool) : int_dtype :=
  if is_asym_mode then uint8 else int8.

Definition quant_level_low (num_bits : Z) (is_asym_mode : bool) : Z :=
  if is_asym_mode then 0 else - 2 ^ (num_bits - 1).

Definition quant_level_high (num_bits : Z) (is_asym_mode : bool) : Z :=
  if is_asym_mode then 2 ^ num_bits - 1 else 2 ^ (num_bits - 1) - 1.

(** Lines 94-103: divide by the scale, shift by the zero point, round, clip
    and cast. *)
Definition quantize_weight (weight scale : FloatTensor) (zero_point : option IntTensor)
           (num_bits : Z) (is_asym_mode : bool) : result IntTensor :=
  let dtype := quant_dtype is_asym_mode in
  let level_low := quant_level_low num_bits is_asym_mode in
  let level_high := quant_level_high num_bits is_asym_mode in
  compressed_weight <- binop Qdiv weight scale ;;
  compressed_weight <-
    match zero_point with
    | Some zp => binop Qplus compressed_weight (to_float (fdtype weight) (TInt zp))
    | None => Ok compressed_weight
    end ;;
  let compressed_weight :=
    pointwise (fun x => inject_Z (round_half_even x)) compressed_weight in
  let compressed_weight :=
    pointwise (fun x => clipQ x level_low level_high) compressed_weight in
  Ok (to_int dtype (TFloat compressed_weight)).

(** Lines 105-132: the decompressor for the bit width and mode. *)
Definition make_decompressor (num_bits : Z) (is_asym_mode : bool)
           (scale : FloatTensor) (zero_point : option IntTensor)
           (compressed_weight_shape result_shape : list nat)
           (torch_dtype : float_dtype) : result Decompressor :=
  if num_bits =? 4 then
    match is_asym_mode, zero_point with
    | true, Some zp =>
        d <- INT4AsymmetricWeightsDecompressor.init
               scale (TInt zp) compressed_weight_shape (Some result_shape) (Some torch_dtype) ;;
        Ok (INT4Asymmetric d)
    | true, None => RuntimeError "NoneType object has no attribute data"
    | false, _ =>
        d <- INT4SymmetricWeightsDecompressor.init
               scale compressed_weight_shape (Some result_shape) (Some torch_dtype) ;;
        Ok (INT4Symmetric d)
    end
  else
    match is_asym_mode, zero_point with
    | true, Some zp =>
        d <- INT8AsymmetricWeightsDecompressor.init scale (TInt zp) (Some torch_dtype) ;;
        Ok (INT8Asymmetric d)
    | true, None => RuntimeError "NoneType object has no attribute data"
    | false, _ =>
        d <- INT8SymmetricWeightsDecompressor.init scale (Some torch_dtype) ;;
        Ok (INT8Symmetric d)
    end.

(** Lines 68-134 on the float32 weight: parameters, codes, decompressor and
    packed codes. *)
Definition compress_weight (weight : FloatTensor) (reduction_axes : list nat)
           (num_bits : Z) (is_asym_mode : bool) (torch_dtype : float_dtype)
  : result (IntTensor * Decompressor) :=
  params <- (if is_asym_mode
             then p <- asym_params weight reduction_axes num_bits ;;
                  Ok (fst p, Some (snd p))
             else s <- sym_params weight reduction_axes num_bits ;;
                  Ok (s, None)) ;;
  let scale := fst params in
  let zero_point := snd params in
  compressed_weight <- quantize_weight weight scale zero_point num_bits is_asym_mode ;;
  decompressor <- make_decompressor num_bits is_asym_mode scale zero_point
                    (ishape compressed_weight) (fshape weight) torch_dtype ;;
  packed <- pack_weight decompressor (TInt compressed_weight) ;;
  Ok (packed, decompressor).

Section Pass.

(** [devices.dtype], the working dtype of the process. *)
Variable devices_dtype : float_dtype.

Definition nncf_compress_layer (layer : Layer) (num_bits : Z) (is_asym_mode : bool)
           (torch_dtype : option float_dtype) (quant_conv : bool) : result Layer :=
  if in_types (class_name layer) allowed_types then
    let torch_dtype :=
      match torch_dtype with Some d => d | None => devices_dtype end in
    let n := ndim (weight layer) in
    if in_types (class_name layer) conv_types && (is_asym_mode || negb quant_conv)
    then Ok layer
    else
      let reduction_axes :=
        if in_types (class_name layer) conv_types then axes_except 0 n else [] in
      if in_types (class_name layer) conv_transpose_types
         && (is_asym_mode || negb quant_conv)
      then Ok layer
      else
        let reduction_axes :=
          if in_types (class_name layer) conv_transpose_types
          then axes_except 1 n
          else [(n - 1)%nat] in
        let w := to_float float32 (weight layer) in
        r <- compress_weight w reduction_axes num_bits is_asym_mode torch_dtype ;;
        Ok (mkLayer (class_name layer) (TInt (fst r)) false
                    (other_parameters layer)
                    (pre_forward_operations layer ++ [snd r]))
  else Ok layer.

End Pass.

(** The value of [reduction_axes] at line 62, for a layer of class [cls]
    with a weight of rank [n] that the pass did not return early. *)
Definition reduction_axes_of (cls : string) (n : nat) : list nat :=
  let reduction_axes := if in_types cls conv_types then axes_except 0 n else [] in
  let reduction_axes :=
    if in_types cls conv_transpose_types then axes_except 1 n else [(n - 1)%nat] in
  reduction_axes.

(** ** The quantizer of the loading path *)

Record NNCFConfig : Type := mkConfig {
  num_bits : Z;
  is_asym_mode : bool
}.

(** The fields of [NNCFQuantizer] that [create_quantized_param] reads.
    [modules_to_not_convert] is the list built by
    [_process_model_before_weight_loading]. *)
Record NNCFQuantizer : Type := mkQuantizer {
  quantization_config : NNCFConfig;
  modules_to_not_convert : list string;
  torch_dtype : float_dtype
}.

(** [param_name.split(".")] *)
Fixpoint split_dots (s : string) : list string :=
  match s with
  | EmptyString => [EmptyString]
  | String c r =>
      if Ascii.eqb c "."%char then EmptyString :: split_dots r
      else match split_dots r with
           | h :: t => String c h :: t
           | [] => [String c EmptyString]
           end
  end.

(** [layer._parameters[tensor_name] = torch.nn.Parameter(param_value)] *)
Definition set_parameter (layer : Layer) (tensor_name : string) (param_value : FloatTensor)
  : Layer :=
  if String.eqb tensor_name "weight"
  then mkLayer (class_name layer) (TFloat param_value) true
               (other_parameters layer) (pre_forward_operations layer)
  else mkLayer (class_name layer) (weight layer) (weight_requires_grad layer)
               ((tensor_name, TFloat param_value)
                  :: filter (fun p => negb (String.eqb (fst p) tensor_name))
                            (other_parameters layer))
               (pre_forward_operations layer).

Section LoadingPath.

Variable devices_dtype : float_dtype.

(** [layer] and [tensor_name] are what [get_module_from_name(model,
    param_name)] returns; the result is the layer as the call leaves it. *)
Definition create_quantized_param (self : NNCFQuantizer) (layer : Layer)
           (tensor_name : string) (param_value : FloatTensor) (param_name : string)
  : result Layer :=
  let layer := set_parameter layer tensor_name param_value in
  let split_param_name := split_dots param_name in
  if negb (in_types param_name (modules_to_not_convert self))
     && negb (existsb (fun param => in_types param split_param_name)
                      (modules_to_not_convert self))
  then nncf_compress_layer devices_dtype layer
         (num_bits (quantization_config self))
         (is_asym_mode (quantization_config self))
         (Some (torch_dtype self))
         false
  else Ok layer.

(** The hook a quantized layer runs before its computation: every
    registered decompressor rewrites [x.weight]. *)
Definition run_pre_forward (layer : Layer) : result Layer :=
  fold_left
    (fun acc d =>
       l <- acc ;;
       w <- forward d (weight l) ;;
       Ok (mkLayer (class_name l) (TFloat w) (weight_requires_grad l)
                   (other_parameters l) (pre_forward_operations l)))
    (pre_forward_operations layer) (Ok layer).

End LoadingPath.

(** ** Sample inputs *)

Definition conv_layer_example : Layer :=
  mkLayer "NNCFConv2d"
          (TFloat (mkFloat float16 [2; 2; 1; 2]%nat [1; 2; 3; 4; 5; 6; 7; 8]%Q))
          true [] [].


Definition linear_layer_example : Layer :=
  mkLayer "NNCFLinear"
          (TFloat (mkFloat float16 [2; 3]%nat [1; 2; 3; 4; 5; 6]%Q))
          true [] [].

Definition quantizer_example : NNCFQuantizer :=
  mkQuantizer (mkConfig 8 false) [] float16.

(** A floating tensor whose values are legal codes of every variant. *)
Definition float_codes_example : Tensor :=
  TFloat (mkFloat float32 [2]%nat [1; 2]%Q).

(** The sixteen values of a nibble, for exhaustive checks. *)
Definition nibbles : list Z := map Z.of_nat (seq 0 16).

Definition nibble_roundtrip_ok (lo hi : Z) : bool :=
  (pack_byte (lo, hi) =? lo + 16 * hi)
  && (Z.land (pack_byte (lo, hi)) 15 =? lo)
  && (Z.shiftr (pack_byte (lo, hi)) 4 =? hi).

Definition uint4_tensor_example : IntTensor :=
  mkInt uint8 [2; 2]%nat [0; 15; 7; 8].

Definition int4_tensor_example : IntTensor :=
  mkInt int8 [2; 2]%nat [-8; 7; -1; 0].

(** A weight whose extreme values have the same magnitude. *)
Definition balanced_layer_example : Layer :=
  mkLayer "NNCFLinear" (TFloat (mkFloat float16 [1; 2]%nat [-1; 1]%Q)) true [] [].

(** [z] is a nearest integer of [x], and the even one at a tie: the
    specification of rounding half to even. *)
Definition nearest_even (x : Q) (z : Z) : Prop :=
  (inject_Z z - (1 # 2) < x /\ x < inject_Z z + (1 # 2))%Q
  \/ ((x == inject_Z z - (1 # 2) \/ x == inject_Z z + (1 # 2))%Q /\ Z.even z = true).

(** Per-channel statistics of a weight, as [amin] / [amax] return them at
    position [c]. *)
Definition channel_min (w : FloatTensor) (axes : list nat) (c : nat) : Q :=
  Qlist_min (channel_values w (keepdims_shape axes (fshape w)) c).

Definition channel_max (w : FloatTensor) (axes : list nat) (c : nat) : Q :=
  Qlist_max (channel_values w (keepdims_shape axes (fshape w)) c).

(** No reduced axis of the weight is empty, so [amin] / [amax] succeed. *)
Definition reducible (w : FloatTensor) (axes : list nat) : bool :=
  negb (existsb (fun a => Nat.eqb (nth a (fshape w) 1%nat) 0) axes).

(** The elements agree in number with the shape. *)
Definition well_formed (w : FloatTensor) : Prop :=
  length (fdata w) = numel (fshape w).

(** The zero point added to the quotient at position [k]; nothing in
    symmetric mode. *)
Definition zero_point_at (zp : option IntTensor) (s : list nat) (k : nat) : Z :=
  match zp with
  | Some z => nth (channel_of s (ishape z) k) (idata z) 0
  | None => 0
  end.

Definition shifted_quotient (zp : option IntTensor) (s : list nat) (k : nat) (x : Q) : Q :=
  match zp with
  | Some z => (x + inject_Z (zero_point_at zp s k))%Q
  | None => x
  end.





Definition sample_weight : FloatTensor :=
  mkFloat float32 [2; 2]%nat [1; -2; 3; -(1 # 2)]%Q.

(** The dtype the decompressor returns: [torch_dtype], or [devices.dtype]
    when the caller passed none. *)
Definition working_dtype (dd : float_dtype) (td : option float_dtype) : float_dtype :=
  match td with Some d => d | None => dd end.



Definition byte_tensor_example : IntTensor :=
  mkInt uint8 [2; 1]%nat [240; 23].

Definition wide_uint8_tensor_example : IntTensor :=
  mkInt uint8 [2]%nat [255; 16].

(** A linear layer with three output channels. *)
Definition odd_channels_layer_example : Layer :=
  mkLayer "NNCFLinear"
          (TFloat (mkFloat float16 [3; 2]%nat [0; 1; 2; 3; 4; 5]%Q))
          true [] [].


Definition fractional_codes_example : FloatTensor :=
  mkFloat float32 [3]%nat [3 # 2; -(7 # 4); 127]%Q.

(** [".".join(parts)] *)
Fixpoint join_dots (parts : list string) : string :=
  match parts with
  | [] => EmptyString
  | [x] => x
  | x :: rest => (x ++ String "."%char (join_dots rest))%string
  end.

Fixpoint has_dot (s : string) : bool :=
  match s with
  | EmptyString => false
  | String c r => Ascii.eqb c "."%char || has_dot r
  end.

Definition deny_quantizer_example : NNCFQuantizer :=
  mkQuantizer (mkConfig 8 false) ["proj_out"; "encoder.norm"]%string float16.

(** ** Configuration *)

(** Outcome of [NNCFConfig.__init__]: the dictionary lookup raises
    [KeyError], [post_init] raises [ValueError]. *)
Inductive init_result (A : Type) : Type :=
| InitOk (a : A)
| InitKeyError (key : string)
| InitValueError (msg : string).

Arguments InitOk {A} a.
Arguments InitKeyError {A} key.
Arguments InitValueError {A} msg.

(** The targets of [torch_dtype_dict]. *)
Inductive target_dtype : Set := torch_int8 | torch_uint8 | CustomDtype_INT4.

Definition torch_dtype_dict : list (string * target_dtype) :=
  [("int8", torch_int8); ("uint8", torch_uint8);
   ("int4", CustomDtype_INT4); ("uint4", CustomDtype_INT4)]%string.

Definition weights_dtype_dict : list (string * string) :=
  [("int8_asym", "uint8"); ("int8_sym", "int8");
   ("int4_asym", "uint4"); ("int4_sym", "int4");
   ("int8", "uint8"); ("int4", "uint4")]%string.

Fixpoint dict_get {V : Type} (key : string) (d : list (string * V)) : option V :=
  match d with
  | [] => None
  | (k, v) :: rest => if String.eqb key k then Some v else dict_get key rest
  end.

(** [str.lower] on the ASCII letters; other bytes are left alone, which
    cannot create or destroy a match with the ASCII keys of the dictionary. *)
Definition ascii_lower (c : ascii) : ascii :=
  let n := nat_of_ascii c in
  if (Nat.leb 65 n && Nat.leb n 90)%bool then ascii_of_nat (n + 32) else c.

Fixpoint lower (s : string) : string :=
  match s with
  | EmptyString => EmptyString
  | String c r => String (ascii_lower c) (lower r)
  end.

Definition accepted_weights : list string := ["int8"; "uint8"; "int4"; "uint4"]%string.

Definition post_init (weights_dtype : string) : init_result unit :=
  if in_types weights_dtype accepted_weights
  then InitOk tt
  else InitValueError "Only support weights in accepted_weights".

(** [NNCFConfig.__init__]: the stored [weights_dtype] and the two fields the
    quantizer reads. *)
Definition NNCFConfig_init (weights_dtype : string) : init_result (string * NNCFConfig) :=
  match dict_get (lower weights_dtype) weights_dtype_dict with
  | None => InitKeyError (lower weights_dtype)
  | Some wd =>
      match post_init wd with
      | InitOk _ =>
          InitOk (wd,
                  mkConfig (if in_types wd ["int8"; "uint8"]%string then 8 else 4)
                           (in_types wd ["uint8"; "uint4"]%string))
      | InitKeyError k => InitKeyError k
      | InitValueError m => InitValueError m
      end
  end.

(** [NNCFQuantizer.adjust_target_dtype]; [None] is a [KeyError]. *)
Definition adjust_target_dtype (weights_dtype : string) : option target_dtype :=
  dict_get weights_dtype torch_dtype_dict.

Definition target_bits (t : target_dtype) : Z :=
  match t with torch_int8 | torch_uint8 => 8 | CustomDtype_INT4 => 4 end.

(** ** The module graph and its traversal *)

(** What a module holds itself: class name, [weight] ([None] when the
    attribute is missing or [None]), the other parameters and the registered
    pre-forward operations. *)
Record Node : Type := mkNode {
  node_class : string;
  node_weight : option Tensor;
  node_requires_grad : bool;
  node_others : list (string * Tensor);
  node_ops : list Decompressor
}.

#[local] Set Warnings "-register-all".

(** A module with its named children.  The graph is a tree: no module is
    registered twice. *)
Inductive Module : Type :=
| mkModule (node : Node) (children : list (string * Module)).

Definition module_node (m : Module) : Node :=
  match m with mkModule node _ => node end.

Definition module_children (m : Module) : list (string * Module) :=
  match m with mkModule _ children => children end.

Definition node_of_layer (l : Layer) : Node :=
  mkNode (class_name l) (Some (weight l)) (weight_requires_grad l)
         (other_parameters l) (pre_forward_operations l).

(** The loop over [named_children()], stopping at the first exception. *)
Definition for_children (body : string -> Module -> result Module)
  : list (string * Module) -> result (list (string * Module)) :=
  fix loop (cs : list (string * Module)) : result (list (string * Module)) :=
    match cs with
    | [] => Ok []
    | (name, module) :: rest =>
        module' <- body name module ;;
        rest' <- loop rest ;;
        Ok ((name, module') :: rest')
    end.

Section Traversal.

Variable devices_dtype : float_dtype.
Variables (num_bits_arg : Z) (is_asym_mode_arg quant_conv_arg : bool).

(** Lines 150-151 on the fields of one child: the guard and the call of
    [nncf_compress_layer] with [torch_dtype=devices.dtype]. *)
Definition compress_node (node : Node) : result Node :=
  if String.prefix "NNCF" (node_class node) then
    match node_weight node with
    | Some w =>
        l <- nncf_compress_layer devices_dtype
               (mkLayer (node_class node) w (node_requires_grad node)
                        (node_others node) (node_ops node))
               num_bits_arg is_asym_mode_arg (Some devices_dtype) quant_conv_arg ;;
        Ok (node_of_layer l)
    | None => Ok node
    end
  else Ok node.

(** [nncf_compress_layer] rewrites the fields of the child and the recursive
    call rewrites its children; both act on the same object, so the child
    ends with the new fields and the new children. *)
Fixpoint apply_nncf_to_module (model : Module) : result Module :=
  match model with
  | mkModule node children =>
      children' <-
        for_children
          (fun _ module =>
             node' <- compress_node (module_node module) ;;
             module' <- apply_nncf_to_module module ;;
             Ok (mkModule node' (module_children module')))
          children ;;
      Ok (mkModule node children')
  end.

End Traversal.

(** The module reached by following child positions. *)
Fixpoint module_at (path : list nat) (m : Module) : option Module :=
  match path with
  | [] => Some m
  | i :: rest =>
      match nth_error (module_children m) i with
      | Some (_, c) => module_at rest c
      | None => None
      end
  end.

(** Names of the children, level by level: the structure of the graph
    without the contents of its modules. *)
Fixpoint skeleton (m : Module) : Module :=
  match m with
  | mkModule node children =>
      mkModule (mkNode (node_class node) None false [] [])
               (map (fun p => (fst p, skeleton (snd p))) children)
  end.

Definition sample_model : Module :=
  mkModule (mkNode "Block" None false [] [])
    [("proj"%string,
      mkModule (mkNode "NNCFLinear"
                       (Some (TFloat (mkFloat float16 [1; 2]%nat [-1; 1]%Q))) true [] []) []);
     ("plain"%string,
      mkModule (mkNode "Linear"
                       (Some (TFloat (mkFloat float16 [1; 2]%nat [-1; 1]%Q))) true [] []) [])].

Definition sample_model_quantized : Module :=
  Eval vm_compute in
    match apply_nncf_to_module float16 8 false false sample_model with
    | Ok m => m
    | _ => sample_model
    end.

(** ** The deny list before loading *)



(** * Properties *)

(** ** Results *)

Lemma bind_Ok {A B : Type} (e : result A) (k : A -> result B) (b : B) :
  bind e k = Ok b -> exists a, e = Ok a /\ k a = Ok b.
Proof.
  destruct e as [a| |]; simpl; intro H; try discriminate.
  exists a; split; [reflexivity | exact H].
Qed.

Lemma bind_not_ValueError {A B : Type} (e : result A) (k : A -> result B) :
  is_ValueError e = false ->
  (forall a, e = Ok a -> is_ValueError (k a) = false) ->
  is_ValueError (bind e k) = false.
Proof.
  destruct e as [a| |]; simpl; intros He Hk; try discriminate; auto.
Qed.

(** ** Layer classes *)

Lemma in_types_allowed (cls : string) :
  in_types cls allowed_types =
  in_types cls linear_types || in_types cls conv_types || in_types cls conv_transpose_types.
Proof.
  unfold in_types, allowed_types.
  rewrite !existsb_app, orb_assoc; reflexivity.
Qed.

Lemma in_types_In (cls : string) (types : list string) :
  in_types cls types = true <-> In cls types.
Proof.
  unfold in_types; rewrite existsb_exists; split.
  - intros [x [Hin Heq]]. apply String.eqb_eq in Heq. subst; assumption.
  - intro Hin. exists cls; split; [assumption | apply String.eqb_refl].
Qed.

(** No class name is both a convolution and a transposed convolution, nor
    both linear and one of those. *)
Lemma conv_not_transpose (cls : string) :
  in_types cls conv_types = true -> in_types cls conv_transpose_types = false.
Proof.
  intro H. apply in_types_In in H. simpl in H.
  repeat (destruct H as [H | H]; [subst; reflexivity | ]); contradiction.
Qed.

Lemma linear_not_conv (cls : string) :
  in_types cls linear_types = true ->
  in_types cls conv_types = false /\ in_types cls conv_transpose_types = false.
Proof.
  intro H. apply in_types_In in H. simpl in H.
  repeat (destruct H as [H | H]; [subst; split; reflexivity | ]); contradiction.
Qed.

(** What the pass does with a layer it does not return early. *)
Lemma nncf_compress_layer_quantizes (dd : float_dtype) (layer : Layer) (n : Z)
      (asym : bool) (td : option float_dtype) (qc : bool) :
  in_types (class_name layer) linear_types = true
  \/ ((in_types (class_name layer) conv_types = true
       \/ in_types (class_name layer) conv_transpose_types = true)
      /\ asym = false /\ qc = true) ->
  nncf_compress_layer dd layer n asym td qc =
  (r <- compress_weight (to_float float32 (weight layer))
          (reduction_axes_of (class_name layer) (ndim (weight layer)))
          n asym (match td with Some d => d | None => dd end) ;;
   Ok (mkLayer (class_name layer) (TInt (fst r)) false (other_parameters layer)
               (pre_forward_operations layer ++ [snd r]))).
Proof.
  intros H. unfold nncf_compress_layer, reduction_axes_of.
  rewrite in_types_allowed.
  destruct H as [Hl | [Hc [-> ->]]].
  - rewrite Hl. destruct (linear_not_conv _ Hl) as [-> ->]. reflexivity.
  - destruct Hc as [Hc | Hc].
    + rewrite Hc, (conv_not_transpose _ Hc), orb_true_r. reflexivity.
    + rewrite Hc, !orb_true_r.
      destruct (in_types (class_name layer) conv_types); reflexivity.
Qed.

(** The pass leaves every layer that is not linear alone unless convolutions
    were asked for in symmetric mode. *)
Lemma nncf_compress_layer_skips (dd : float_dtype) (layer : Layer) (n : Z)
      (asym : bool) (td : option float_dtype) (qc : bool) :
  in_types (class_name layer) linear_types = false ->
  asym = true \/ qc = false ->
  nncf_compress_layer dd layer n asym td qc = Ok layer.
Proof.
  intros Hl Hm. unfold nncf_compress_layer.
  assert (Hg : asym || negb qc = true)
    by (destruct Hm; subst; [reflexivity | apply orb_true_r]).
  rewrite in_types_allowed, Hl, Hg.
  destruct (in_types (class_name layer) conv_types);
    destruct (in_types (class_name layer) conv_transpose_types); reflexivity.
Qed.

(** C8.  A convolution or transposed-convolution layer submitted in
    asymmetric mode comes back as it went in: same weight, same registered
    operations, and no exception. *)
Theorem asym_conv_layer_unmodified (dd : float_dtype) (layer : Layer) (n : Z)
        (td : option float_dtype) (qc : bool) :
  in_types (class_name layer) conv_types = true
  \/ in_types (class_name layer) conv_transpose_types = true ->
  nncf_compress_layer dd layer n true td qc = Ok layer.
Proof.
  intro H. apply nncf_compress_layer_skips; [ | left; reflexivity].
  destruct (in_types (class_name layer) linear_types) eqn:Hl; [ | reflexivity].
  destruct (linear_not_conv _ Hl) as [H1 H2].
  destruct H as [H | H]; congruence.
Qed.

Lemma asym_conv_layer_unmodified_witness :
  nncf_compress_layer float16 conv_layer_example 8 true None true = Ok conv_layer_example.
Proof.
  apply (asym_conv_layer_unmodified float16 conv_layer_example 8 None true).
  left; reflexivity.
Defined.

(** C9.  [create_quantized_param] passes no [quant_conv], so the pass runs
    with its default [False]: on the loading path a convolution or
    transposed-convolution layer keeps the parameter just loaded and gets no
    decompressor, in symmetric mode as well; a layer the call does quantize
    is a linear one. *)
Theorem loading_path_quantizes_only_linear (dd : float_dtype) (self : NNCFQuantizer)
        (layer : Layer) (tensor_name : string) (param_value : FloatTensor)
        (param_name : string) :
  (in_types (class_name layer) conv_types = true
   \/ in_types (class_name layer) conv_transpose_types = true ->
   create_quantized_param dd self layer tensor_name param_value param_name
   = Ok (set_parameter layer tensor_name param_value))
  /\ (forall layer',
         create_quantized_param dd self layer tensor_name param_value param_name = Ok layer' ->
         layer' <> set_parameter layer tensor_name param_value ->
         in_types (class_name layer) linear_types = true).
Proof.
  assert (Hcls : class_name (set_parameter layer tensor_name param_value) = class_name layer).
  { unfold set_parameter. destruct (String.eqb tensor_name "weight"); reflexivity. }
  assert (Hskip : in_types (class_name layer) linear_types = false ->
                  create_quantized_param dd self layer tensor_name param_value param_name
                  = Ok (set_parameter layer tensor_name param_value)).
  { intro Hl. unfold create_quantized_param.
    match goal with |- (if ?c then _ else _) = _ => destruct c end; [ | reflexivity].
    apply nncf_compress_layer_skips; [rewrite Hcls; exact Hl | right; reflexivity]. }
  split.
  - intro H. apply Hskip.
    destruct (in_types (class_name layer) linear_types) eqn:Hl; [ | reflexivity].
    destruct (linear_not_conv _ Hl) as [H1 H2].
    destruct H as [H | H]; congruence.
  - intros layer' Hrun Hne.
    destruct (in_types (class_name layer) linear_types) eqn:Hl; [reflexivity | ].
    rewrite (Hskip eq_refl) in Hrun. congruence.
Qed.

Lemma loading_path_quantizes_only_linear_witness :
  create_quantized_param float16 quantizer_example conv_layer_example "weight"
    (mkFloat float16 [2; 2; 1; 2]%nat [1; 2; 3; 4; 5; 6; 7; 8]%Q) "conv_in.weight"
  = Ok (set_parameter conv_layer_example "weight"
          (mkFloat float16 [2; 2; 1; 2]%nat [1; 2; 3; 4; 5; 6; 7; 8]%Q)).
Proof.
  apply (proj1 (loading_path_quantizes_only_linear float16 quantizer_example
                  conv_layer_example "weight"
                  (mkFloat float16 [2; 2; 1; 2]%nat [1; 2; 3; 4; 5; 6; 7; 8]%Q)
                  "conv_in.weight")).
  left; reflexivity.
Defined.

(** The same quantizer does quantize a linear layer, and the pass called
    directly with [quant_conv] set does quantize the convolution. *)
Example loading_path_linear_is_quantized :
  result_map weight
    (create_quantized_param float16 quantizer_example linear_layer_example "weight"
       (mkFloat float16 [2; 3]%nat [1; 2; 3; 4; 5; 6]%Q) "proj.weight")
  = Ok (TInt (mkInt int8 [2; 3]%nat [-43; -85; -128; -85; -107; -128]))
  /\ result_map (fun l => length (pre_forward_operations l))
       (create_quantized_param float16 quantizer_example linear_layer_example "weight"
          (mkFloat float16 [2; 3]%nat [1; 2; 3; 4; 5; 6]%Q) "proj.weight")
     = Ok 1%nat
  /\ result_map weight (nncf_compress_layer float16 conv_layer_example 8 false None true)
     = Ok (TInt (mkInt int8 [2; 2; 1; 2]%nat [-64; -128; -96; -128; -107; -128; -112; -128])).
Proof.
  split; [ | split]; vm_compute; reflexivity.
Qed.

(** ** Range validation of the packers *)

Lemma any_outside_int (lo hi : Z) (t : IntTensor) :
  Exists (fun v => v < lo \/ hi < v) (idata t) -> any_outside lo hi (TInt t) = true.
Proof.
  intro H. simpl. apply existsb_exists. apply Exists_exists in H.
  destruct H as [v [Hin Hv]]. exists v; split; [assumption | ].
  apply orb_true_iff. destruct Hv; [left; apply Z.ltb_lt | right; apply Z.gtb_lt]; lia.
Qed.

Lemma any_outside_int_false (lo hi : Z) (t : IntTensor) :
  Forall (fun v => lo <= v <= hi) (idata t) -> any_outside lo hi (TInt t) = false.
Proof.
  intro H. simpl. induction H as [ | v l Hv Hl IH]; simpl; [reflexivity | ].
  rewrite IH, orb_false_r. apply orb_false_iff; split.
  - apply Z.ltb_ge; lia.
  - rewrite Z.gtb_ltb. apply Z.ltb_ge; lia.
Qed.

(** C6.  An integer tensor with a value outside the legal range of a
    decompressor makes that decompressor's [pack_weight] raise [ValueError];
    nothing is packed. *)
Theorem pack_weight_rejects_out_of_range (t : IntTensor) :
  (Exists (fun v => v < 0 \/ 255 < v) (idata t) ->
   exists msg, INT8AsymmetricWeightsDecompressor.pack_weight (TInt t) = ValueError msg)
  /\ (Exists (fun v => v < -128 \/ 127 < v) (idata t) ->
      exists msg, INT8SymmetricWeightsDecompressor.pack_weight (TInt t) = ValueError msg)
  /\ (Exists (fun v => v < 0 \/ 15 < v) (idata t) ->
      exists msg, INT4AsymmetricWeightsDecompressor.pack_weight (TInt t) = ValueError msg)
  /\ (Exists (fun v => v < -8 \/ 7 < v) (idata t) ->
      exists msg, INT4SymmetricWeightsDecompressor.pack_weight (TInt t) = ValueError msg).
Proof.
  repeat split; intro H; apply any_outside_int in H.
  - unfold INT8AsymmetricWeightsDecompressor.pack_weight.
    cbn [is_floating_point]. rewrite H. eexists; reflexivity.
  - unfold INT8SymmetricWeightsDecompressor.pack_weight.
    rewrite H. eexists; reflexivity.
  - unfold INT4AsymmetricWeightsDecompressor.pack_weight.
    rewrite H. eexists; reflexivity.
  - unfold INT4SymmetricWeightsDecompressor.pack_weight.
    cbn [is_floating_point]. rewrite H. eexists; reflexivity.
Qed.

(** 16 in an unsigned 4-bit slot and -9 in a signed one. *)
Lemma pack_weight_rejects_out_of_range_witness :
  (exists msg, INT4AsymmetricWeightsDecompressor.pack_weight
                 (TInt (mkInt uint8 [2]%nat [3; 16])) = ValueError msg)
  /\ (exists msg, INT4SymmetricWeightsDecompressor.pack_weight
                    (TInt (mkInt int8 [2]%nat [-9; 2])) = ValueError msg).
Proof.
  split.
  - apply (proj1 (proj2 (proj2 (pack_weight_rejects_out_of_range (mkInt uint8 [2]%nat [3; 16]))))).
    apply Exists_cons_tl, Exists_cons_hd. right. simpl. lia.
  - apply (proj2 (proj2 (proj2 (pack_weight_rejects_out_of_range (mkInt int8 [2]%nat [-9; 2]))))).
    apply Exists_cons_hd. left. simpl. lia.
Defined.

(** C7.  Two of the four packers test [is_floating_point] and two do not: a
    float32 tensor holding the legal codes 1 and 2 is cast and packed by the
    8-bit symmetric and the 4-bit asymmetric decompressor, and refused by
    the other two. *)
Theorem float_tensor_packed_by_two_variants :
  INT8SymmetricWeightsDecompressor.pack_weight float_codes_example
  = Ok (mkInt int8 [2]%nat [1; 2])
  /\ INT4AsymmetricWeightsDecompressor.pack_weight float_codes_example
     = Ok (mkInt uint8 [1; 1]%nat [33])
  /\ is_ValueError (INT8AsymmetricWeightsDecompressor.pack_weight float_codes_example) = true
  /\ is_ValueError (INT4SymmetricWeightsDecompressor.pack_weight float_codes_example) = true.
Proof.
  repeat split; vm_compute; reflexivity.
Qed.

(** ** Nibble packing *)

Lemma nibble_in (v : Z) : 0 <= v <= 15 -> In v nibbles.
Proof.
  intro H. unfold nibbles. apply in_map_iff.
  exists (Z.to_nat v); split; [lia | ]. apply in_seq. lia.
Qed.

Lemma nibble_roundtrip (lo hi : Z) :
  0 <= lo <= 15 -> 0 <= hi <= 15 ->
  pack_byte (lo, hi) = lo + 16 * hi
  /\ Z.land (pack_byte (lo, hi)) 15 = lo
  /\ Z.shiftr (pack_byte (lo, hi)) 4 = hi.
Proof.
  intros Hlo Hhi.
  assert (Hall : forallb (fun a => forallb (nibble_roundtrip_ok a) nibbles) nibbles = true)
    by (vm_compute; reflexivity).
  rewrite forallb_forall in Hall.
  specialize (Hall lo (nibble_in lo Hlo)). rewrite forallb_forall in Hall.
  specialize (Hall hi (nibble_in hi Hhi)). unfold nibble_roundtrip_ok in Hall.
  apply andb_true_iff in Hall. destruct Hall as [Hall H3].
  apply andb_true_iff in Hall. destruct Hall as [H1 H2].
  apply Z.eqb_eq in H1, H2, H3. auto.
Qed.

(** Induction two elements at a time, the way [pairs] recurses. *)
Lemma list_pair_ind (P : list Z -> Prop) :
  P [] -> (forall a, P [a]) -> (forall a b l, P l -> P (a :: b :: l)) ->
  forall l, P l.
Proof.
  intros H0 H1 H2.
  assert (H : forall l, P l /\ forall a, P (a :: l)).
  { induction l as [ | b l [IH IH']]; split; auto. }
  intro l; apply H.
Qed.

Lemma pairs_even (l : list Z) :
  Nat.even (length l) = true ->
  exists ps, pairs l = Some ps /\ (2 * length ps = length l)%nat.
Proof.
  induction l as [ | a | a b l IH] using list_pair_ind; intro H.
  - exists []; split; reflexivity.
  - discriminate.
  - destruct (IH H) as [ps [Hps Hlen]].
    exists ((a, b) :: ps); split; [simpl; rewrite Hps; reflexivity | simpl; lia].
Qed.

Lemma pairs_Some_even (l : list Z) (ps : list (Z * Z)) :
  pairs l = Some ps -> Nat.even (length l) = true.
Proof.
  revert ps. induction l as [ | a | a b l IH] using list_pair_ind; intros ps H.
  - reflexivity.
  - discriminate.
  - simpl in H. destruct (pairs l) as [qs | ] eqn:Hq; [ | discriminate].
    simpl. apply (IH qs eq_refl).
Qed.

Lemma unpack_pack_pairs (l : list Z) (ps : list (Z * Z)) :
  Forall (fun v => 0 <= v <= 15) l ->
  pairs l = Some ps ->
  flat_map (fun p => [Z.land p 15; Z.shiftr p 4]) (map pack_byte ps) = l.
Proof.
  revert ps. induction l as [ | a | a b l IH] using list_pair_ind; intros ps Hr Hp.
  - injection Hp as <-. reflexivity.
  - discriminate.
  - simpl in Hp. destruct (pairs l) as [qs | ] eqn:Hq; [ | discriminate].
    injection Hp as <-.
    inversion Hr as [ | ? ? Ha Hr']; subst. inversion Hr' as [ | ? ? Hb Hr'']; subst.
    destruct (nibble_roundtrip a b Ha Hb) as [_ [H1 H2]].
    simpl. rewrite H1, H2, (IH qs Hr'' eq_refl). reflexivity.
Qed.

Lemma pack_bytes_range (l : list Z) (ps : list (Z * Z)) :
  Forall (fun v => 0 <= v <= 15) l ->
  pairs l = Some ps ->
  Forall (fun p => 0 <= p <= 255) (map pack_byte ps).
Proof.
  revert ps. induction l as [ | a | a b l IH] using list_pair_ind; intros ps Hr Hp.
  - injection Hp as <-. constructor.
  - discriminate.
  - simpl in Hp. destruct (pairs l) as [qs | ] eqn:Hq; [ | discriminate].
    injection Hp as <-.
    inversion Hr as [ | ? ? Ha Hr']; subst. inversion Hr' as [ | ? ? Hb Hr'']; subst.
    destruct (nibble_roundtrip a b Ha Hb) as [H0 _].
    simpl. constructor; [rewrite H0; lia | apply (IH qs Hr'' eq_refl)].
Qed.

Lemma map_id_on {A : Type} (f : A -> A) (P : A -> Prop) (l : list A) :
  (forall x, P x -> f x = x) -> Forall P l -> map f l = l.
Proof.
  intros Hf H. induction H as [ | x l Hx Hl IH]; simpl; [reflexivity | ].
  rewrite (Hf x Hx), IH; reflexivity.
Qed.

Lemma Forall_map_iff {A B : Type} (f : A -> B) (P : B -> Prop) (l : list A) :
  Forall P (map f l) <-> Forall (fun x => P (f x)) l.
Proof.
  induction l as [ | x l IH]; simpl; split; intro H; try constructor;
    inversion H; subst; try assumption; apply IH; assumption.
Qed.

(** Packing succeeds on a non-empty uint8 tensor with an even number of
    nibbles, and unpacking returns the elements. *)
Lemma pack_uint4_unpack (t : IntTensor) :
  idtype t = uint8 ->
  idata t <> [] ->
  Nat.even (length (idata t)) = true ->
  Forall (fun v => 0 <= v <= 15) (idata t) ->
  exists p, pack_uint4 t = Ok p
            /\ idtype p = uint8
            /\ (2 * length (idata p) = length (idata t))%nat
            /\ idata (unpack_uint4 p) = idata t
            /\ idtype (unpack_uint4 p) = uint8.
Proof.
  intros Hdt Hne Hev Hr.
  destruct (pairs_even _ Hev) as [ps [Hps Hlen]].
  unfold pack_uint4. rewrite Hdt, Hps.
  destruct (idata t) as [ | a l] eqn:Hd; [congruence | ].
  eexists; split; [reflexivity | ]. simpl.
  repeat split.
  - rewrite length_map. exact Hlen.
  - apply unpack_pack_pairs; assumption.
Qed.

Lemma pack_int4_unpack (t : IntTensor) :
  idtype t = int8 ->
  idata t <> [] ->
  Nat.even (length (idata t)) = true ->
  Forall (fun v => -8 <= v <= 7) (idata t) ->
  exists p, pack_int4 t = Ok p
            /\ idtype p = uint8
            /\ (2 * length (idata p) = length (idata t))%nat
            /\ idata (unpack_int4 p) = idata t.
Proof.
  intros Hdt Hne Hev Hr.
  unfold pack_int4. rewrite Hdt. cbn [to_int idata ishape].
  set (u := mkInt uint8 (ishape t)
                  (map (wrap uint8) (map (fun v => wrap int8 (v + 8)) (idata t)))).
  assert (Hu : idata u = map (fun v => v + 8) (idata t)).
  { unfold u; cbn [idata]. rewrite map_map.
    apply map_ext_in. intros v Hv.
    rewrite Forall_forall in Hr. specialize (Hr v Hv). unfold wrap.
    rewrite (Z.mod_small (v + 8 + 128) 256) by lia.
    replace (v + 8 + 128 - 128) with (v + 8) by lia.
    apply Z.mod_small; lia. }
  destruct (pack_uint4_unpack u) as [p [Hp [Hpd [Hlen [Hun _]]]]].
  - reflexivity.
  - rewrite Hu. destruct (idata t); [congruence | discriminate].
  - rewrite Hu, length_map. exact Hev.
  - rewrite Hu. apply Forall_map_iff.
    eapply Forall_impl; [ | exact Hr]. simpl; intros; lia.
  - exists p. split; [exact Hp | ]. split; [exact Hpd | ].
    split; [rewrite Hlen, Hu, length_map; reflexivity | ].
    unfold unpack_int4. cbn [to_int idata ishape]. rewrite Hun, Hu, !map_map.
    apply (map_id_on _ (fun v => -8 <= v <= 7)); [ | exact Hr].
    intros v Hv. unfold wrap.
    rewrite (Z.mod_small (v + 8 + 128) 256) by lia.
    replace (v + 8 + 128 - 128 - 8) with v by lia.
    rewrite (Z.mod_small (v + 128) 256) by lia. lia.
Qed.

(** C3.  A nibble pair is stored as [lo + 16 * hi], the mask [& 15] and the
    shift [>> 4] return the two nibbles, and on a tensor of legal 4-bit
    values that splits into pairs, unpacking the packed bytes and reshaping
    to the original shape returns the tensor: unsigned values in [[0, 15]]
    directly, signed values in [[-8, 7]] through the +8 bias. *)
Theorem pack_unpack_identity (t : IntTensor) :
  length (idata t) = numel (ishape t) ->
  idata t <> [] ->
  Nat.even (length (idata t)) = true ->
  (forall lo hi, 0 <= lo <= 15 -> 0 <= hi <= 15 ->
     pack_byte (lo, hi) = lo + 16 * hi
     /\ Z.land (pack_byte (lo, hi)) 15 = lo
     /\ Z.shiftr (pack_byte (lo, hi)) 4 = hi)
  /\ (idtype t = uint8 -> Forall (fun v => 0 <= v <= 15) (idata t) ->
      exists p, pack_uint4 t = Ok p
                /\ reshape_int (ishape t) (unpack_uint4 p) = Ok t)
  /\ (idtype t = int8 -> Forall (fun v => -8 <= v <= 7) (idata t) ->
      exists p, pack_int4 t = Ok p
                /\ reshape_int (ishape t) (unpack_int4 p) = Ok t).
Proof.
  intros Hwf Hne Hev. split; [exact nibble_roundtrip | split].
  - intros Hdt Hr.
    destruct (pack_uint4_unpack t Hdt Hne Hev Hr) as [p [Hp [_ [_ [Hun Hud]]]]].
    exists p; split; [exact Hp | ].
    unfold reshape_int. rewrite Hun, Hud, Hwf, Nat.eqb_refl.
    destruct t as [dt s d]; simpl in *; subst; reflexivity.
  - intros Hdt Hr.
    destruct (pack_int4_unpack t Hdt Hne Hev Hr) as [p [Hp [_ [_ Hun]]]].
    exists p; split; [exact Hp | ].
    unfold reshape_int. rewrite Hun, Hwf, Nat.eqb_refl.
    destruct t as [dt s d]; simpl in *; subst; reflexivity.
Qed.

Lemma pack_unpack_identity_witness :
  (exists p, pack_uint4 uint4_tensor_example = Ok p
             /\ reshape_int [2; 2]%nat (unpack_uint4 p) = Ok uint4_tensor_example)
  /\ (exists p, pack_int4 int4_tensor_example = Ok p
                /\ reshape_int [2; 2]%nat (unpack_int4 p) = Ok int4_tensor_example).
Proof.
  split.
  - apply (proj1 (proj2 (pack_unpack_identity uint4_tensor_example
                           eq_refl ltac:(discriminate) eq_refl))).
    + reflexivity.
    + repeat constructor; simpl; lia.
  - apply (proj2 (proj2 (pack_unpack_identity int4_tensor_example
                           eq_refl ltac:(discriminate) eq_refl))).
    + reflexivity.
    + repeat constructor; simpl; lia.
Defined.

(** ** Codes stay inside the levels *)

Lemma clipZ_range (z lo hi : Z) : lo <= hi -> lo <= clipZ z lo hi <= hi.
Proof. unfold clipZ; lia. Qed.

Lemma clipZ_id (z lo hi : Z) : lo <= z <= hi -> clipZ z lo hi = z.
Proof. unfold clipZ; lia. Qed.

Lemma clipQ_range (x : Q) (lo hi : Z) :
  lo <= hi -> (inject_Z lo <= clipQ x lo hi <= inject_Z hi)%Q.
Proof.
  intro H. unfold clipQ. rewrite Zle_Qle in H. split.
  - apply Q.min_glb; [apply Q.le_max_r | exact H].
  - apply Q.le_min_r.
Qed.

Lemma Qtrunc_range (x : Q) (lo hi : Z) :
  (inject_Z lo <= x <= inject_Z hi)%Q -> lo <= Qtrunc x <= hi.
Proof.
  intros [Hlo Hhi].
  assert (H1 : lo <= Qfloor x)
    by (rewrite <- (Qfloor_Z lo); apply Qfloor_resp_le; exact Hlo).
  assert (H2 : Qceiling x <= hi)
    by (rewrite <- (Qceiling_Z hi); apply Qceiling_resp_le; exact Hhi).
  assert (H3 : Qfloor x <= Qceiling x).
  { rewrite Zle_Qle. apply Qle_trans with x; [apply Qfloor_le | apply Qle_ceiling]. }
  unfold Qtrunc. destruct (Qle_bool 0 x); lia.
Qed.

Lemma float_to_int_range (dt : int_dtype) (x : Q) (lo hi : Z) :
  dtype_min dt <= lo -> hi <= dtype_max dt ->
  (inject_Z lo <= x <= inject_Z hi)%Q ->
  lo <= float_to_int dt x <= hi.
Proof.
  intros Hmin Hmax Hx. unfold float_to_int.
  pose proof (Qtrunc_range x lo hi Hx). rewrite clipZ_id; lia.
Qed.

Lemma quant_levels (n : Z) (asym : bool) :
  n = 4 \/ n = 8 ->
  dtype_min (quant_dtype asym) <= quant_level_low n asym
  /\ quant_level_low n asym <= quant_level_high n asym
  /\ quant_level_high n asym <= dtype_max (quant_dtype asym).
Proof.
  intros [-> | ->]; destruct asym; vm_compute; repeat split; discriminate.
Qed.

Lemma quantize_weight_range (weight scale : FloatTensor) (zp : option IntTensor)
      (n : Z) (asym : bool) (cw : IntTensor) :
  n = 4 \/ n = 8 ->
  quantize_weight weight scale zp n asym = Ok cw ->
  idtype cw = quant_dtype asym
  /\ Forall (fun v => quant_level_low n asym <= v <= quant_level_high n asym) (idata cw).
Proof.
  intros Hn H. unfold quantize_weight in H.
  apply bind_Ok in H. destruct H as [c1 [_ H]].
  apply bind_Ok in H. destruct H as [c2 [_ H]].
  injection H as <-. split; [reflexivity | ].
  cbn [to_int pointwise idata fdata fshape].
  destruct (quant_levels n asym Hn) as [H1 [H2 H3]].
  rewrite !Forall_map_iff. apply Forall_forall. intros x _.
  apply float_to_int_range; [exact H1 | exact H3 | apply clipQ_range; exact H2].
Qed.

Lemma asym_params_zero_point_range (weight : FloatTensor) (axes : list nat) (n : Z)
      (scale : FloatTensor) (zp : IntTensor) :
  0 <= n ->
  asym_params weight axes n = Ok (scale, zp) ->
  idtype zp = int32 /\ Forall (fun z => 0 <= z <= 2 ^ n - 1) (idata zp).
Proof.
  intros Hn H. unfold asym_params in H.
  apply bind_Ok in H. destruct H as [mn [_ H]].
  apply bind_Ok in H. destruct H as [mx [_ H]].
  apply bind_Ok in H. destruct H as [d [_ H]].
  apply bind_Ok in H. destruct H as [q [_ H]].
  injection H as _ <-. split; [reflexivity | ].
  cbn [idata]. rewrite Forall_map_iff. apply Forall_forall. intros z _.
  apply clipZ_range. pose proof (Z.pow_pos_nonneg 2 n). lia.
Qed.

(** The operations of the parameter computation raise no [ValueError]. *)
Lemma reduce_not_ValueError (agg : list Q -> Q) (t : FloatTensor) (axes : list nat) :
  is_ValueError (reduce agg t axes) = false.
Proof. unfold reduce. destruct (existsb _ axes); reflexivity. Qed.

Lemma binop_not_ValueError (f : Q -> Q -> Q) (a b : FloatTensor) :
  is_ValueError (binop f a b) = false.
Proof.
  unfold binop, expand_to.
  destruct (shape_eqb _ _); [reflexivity | ].
  destruct (broadcastable _ _); reflexivity.
Qed.

Lemma pack_uint4_not_ValueError (t : IntTensor) :
  is_ValueError (pack_uint4 t) = false.
Proof.
  unfold pack_uint4. destruct (idtype t); try reflexivity.
  destruct (idata t); [reflexivity | ]. destruct (pairs _); reflexivity.
Qed.

Lemma pack_int4_not_ValueError (t : IntTensor) :
  is_ValueError (pack_int4 t) = false.
Proof.
  unfold pack_int4. destruct (idtype t); try reflexivity.
  apply pack_uint4_not_ValueError.
Qed.

Lemma asym_params_not_ValueError (w : FloatTensor) (axes : list nat) (n : Z) :
  is_ValueError (asym_params w axes n) = false.
Proof.
  unfold asym_params.
  apply bind_not_ValueError; [apply reduce_not_ValueError | intros mn _].
  apply bind_not_ValueError; [apply reduce_not_ValueError | intros mx _].
  apply bind_not_ValueError; [apply binop_not_ValueError | intros d _].
  apply bind_not_ValueError; [apply binop_not_ValueError | intros q _].
  reflexivity.
Qed.

Lemma sym_params_not_ValueError (w : FloatTensor) (axes : list nat) (n : Z) :
  is_ValueError (sym_params w axes n) = false.
Proof.
  unfold sym_params, sym_stats.
  apply bind_not_ValueError.
  - apply bind_not_ValueError; [apply reduce_not_ValueError | intros mn _].
    apply bind_not_ValueError; [apply reduce_not_ValueError | intros mx _].
    reflexivity.
  - intros st _.
    apply bind_not_ValueError; [apply binop_not_ValueError | intros s _].
    reflexivity.
Qed.

Lemma quantize_weight_not_ValueError (w s : FloatTensor) (zp : option IntTensor)
      (n : Z) (asym : bool) :
  is_ValueError (quantize_weight w s zp n asym) = false.
Proof.
  unfold quantize_weight.
  apply bind_not_ValueError; [apply binop_not_ValueError | intros c _].
  apply bind_not_ValueError; [ | intros c' _; reflexivity].
  destruct zp; [apply binop_not_ValueError | reflexivity].
Qed.

Lemma pack_weight_codes_not_ValueError (n : Z) (asym : bool) (scale : FloatTensor)
      (zp : option IntTensor) (cs rs : list nat) (td : float_dtype)
      (d : Decompressor) (cw : IntTensor) :
  n = 4 \/ n = 8 ->
  make_decompressor n asym scale zp cs rs td = Ok d ->
  Forall (fun v => quant_level_low n asym <= v <= quant_level_high n asym) (idata cw) ->
  is_ValueError (pack_weight d (TInt cw)) = false.
Proof.
  intros Hn Hd Hr. unfold make_decompressor in Hd.
  destruct Hn as [-> | ->]; cbn [Z.eqb Pos.eqb] in Hd; destruct asym.
  - destruct zp as [z | ]; [ | discriminate].
    apply bind_Ok in Hd. destruct Hd as [d0 [_ Hd]]. injection Hd as <-.
    cbn [pack_weight]. unfold INT4AsymmetricWeightsDecompressor.pack_weight.
    rewrite (any_outside_int_false 0 15 cw Hr). apply pack_uint4_not_ValueError.
  - apply bind_Ok in Hd. destruct Hd as [d0 [_ Hd]]. injection Hd as <-.
    cbn [pack_weight]. unfold INT4SymmetricWeightsDecompressor.pack_weight.
    cbn [is_floating_point].
    rewrite (any_outside_int_false (-8) 7 cw Hr). apply pack_int4_not_ValueError.
  - destruct zp as [z | ]; [ | discriminate].
    apply bind_Ok in Hd. destruct Hd as [d0 [_ Hd]]. injection Hd as <-.
    cbn [pack_weight]. unfold INT8AsymmetricWeightsDecompressor.pack_weight.
    cbn [is_floating_point].
    rewrite (any_outside_int_false 0 255 cw Hr). reflexivity.
  - apply bind_Ok in Hd. destruct Hd as [d0 [_ Hd]]. injection Hd as <-.
    cbn [pack_weight]. unfold INT8SymmetricWeightsDecompressor.pack_weight.
    rewrite (any_outside_int_false (-128) 127 cw Hr). reflexivity.
Qed.

Lemma make_decompressor_not_ValueError (n : Z) (asym : bool) (scale : FloatTensor)
      (zp : option IntTensor) (cs rs : list nat) (td : float_dtype) :
  n = 4 \/ n = 8 ->
  (forall z, zp = Some z -> Forall (fun v => 0 <= v <= 2 ^ n - 1) (idata z)) ->
  is_ValueError (make_decompressor n asym scale zp cs rs td) = false.
Proof.
  intros Hn Hz. unfold make_decompressor.
  destruct Hn as [-> | ->]; cbn [Z.eqb Pos.eqb]; destruct asym; try reflexivity;
    (destruct zp as [z | ]; [ | reflexivity]); specialize (Hz z eq_refl).
  - apply bind_not_ValueError; [ | intros; reflexivity].
    unfold INT4AsymmetricWeightsDecompressor.init.
    apply bind_not_ValueError; [ | intros; reflexivity].
    unfold INT4AsymmetricWeightsDecompressor.pack_weight.
    rewrite (any_outside_int_false 0 15 z Hz). apply pack_uint4_not_ValueError.
  - apply bind_not_ValueError; [ | intros; reflexivity].
    unfold INT8AsymmetricWeightsDecompressor.init.
    apply bind_not_ValueError; [ | intros; reflexivity].
    unfold INT8AsymmetricWeightsDecompressor.pack_weight. cbn [is_floating_point].
    rewrite (any_outside_int_false 0 255 z Hz). reflexivity.
Qed.

Lemma compress_weight_not_ValueError (w : FloatTensor) (axes : list nat) (n : Z)
      (asym : bool) (td : float_dtype) :
  n = 4 \/ n = 8 ->
  is_ValueError (compress_weight w axes n asym td) = false.
Proof.
  intro Hn. unfold compress_weight.
  apply bind_not_ValueError.
  { destruct asym.
    - apply bind_not_ValueError; [apply asym_params_not_ValueError | reflexivity].
    - apply bind_not_ValueError; [apply sym_params_not_ValueError | reflexivity]. }
  intros params Hp.
  apply bind_not_ValueError; [apply quantize_weight_not_ValueError | ].
  intros cw Hcw. apply (quantize_weight_range _ _ _ _ _ _ Hn) in Hcw.
  destruct Hcw as [_ Hcw].
  apply bind_not_ValueError.
  - apply make_decompressor_not_ValueError; [exact Hn | ].
    intros z Hz. destruct asym.
    + apply bind_Ok in Hp. destruct Hp as [[s zp] [Hp Hq]].
      injection Hq as <-. cbn [snd] in Hz. injection Hz as ->.
      assert (H0 : 0 <= n) by (destruct Hn; subst; lia).
      apply (asym_params_zero_point_range _ _ _ _ _ H0 Hp).
    + apply bind_Ok in Hp. destruct Hp as [s [_ Hq]].
      injection Hq as <-. discriminate.
  - intros d Hd.
    apply bind_not_ValueError; [ | reflexivity].
    apply (pack_weight_codes_not_ValueError _ _ _ _ _ _ _ _ _ Hn Hd Hcw).
Qed.

(** C10.  For 4 and 8 bits the codes that [nncf_compress_layer] hands to
    [pack_weight] have the dtype of the mode and lie in [[level_low,
    level_high]], the decompressor built for that width and mode does not
    raise [ValueError] on them, and so the pass never ends in a
    [ValueError]: the range check of [pack_weight] can only fire on tensors
    supplied from elsewhere. *)
Theorem quantization_pass_never_fails_validation (n : Z) (asym : bool) :
  n = 4 \/ n = 8 ->
  (forall weight scale zp cw,
      quantize_weight weight scale zp n asym = Ok cw ->
      idtype cw = quant_dtype asym
      /\ Forall (fun v => quant_level_low n asym <= v <= quant_level_high n asym) (idata cw)
      /\ forall cs rs td d,
          make_decompressor n asym scale zp cs rs td = Ok d ->
          is_ValueError (pack_weight d (TInt cw)) = false)
  /\ (forall dd layer td qc,
         is_ValueError (nncf_compress_layer dd layer n asym td qc) = false).
Proof.
  intro Hn. split.
  - intros weight scale zp cw H.
    destruct (quantize_weight_range _ _ _ _ _ _ Hn H) as [Hdt Hr].
    split; [exact Hdt | split; [exact Hr | ]].
    intros cs rs td d Hd.
    apply (pack_weight_codes_not_ValueError _ _ _ _ _ _ _ _ _ Hn Hd Hr).
  - intros dd layer td qc. unfold nncf_compress_layer.
    destruct (in_types (class_name layer) allowed_types); [ | reflexivity].
    destruct (in_types (class_name layer) conv_types && (asym || negb qc));
      [reflexivity | ].
    destruct (in_types (class_name layer) conv_transpose_types && (asym || negb qc));
      [reflexivity | ].
    apply bind_not_ValueError; [ | reflexivity].
    apply compress_weight_not_ValueError; exact Hn.
Qed.

Lemma quantization_pass_never_fails_validation_witness :
  is_ValueError (nncf_compress_layer float16 balanced_layer_example 8 false None false)
  = false.
Proof.
  apply (proj2 (quantization_pass_never_fails_validation 8 false
                  ltac:(right; reflexivity))).
Defined.

(** ** Lists and indices *)

Lemma nth_map_lt {A B : Type} (f : A -> B) (l : list A) (k : nat) (d : A) (d' : B) :
  (k < length l)%nat -> nth k (map f l) d' = f (nth k l d).
Proof.
  intro H. rewrite (nth_indep _ d' (f d)) by (rewrite length_map; exact H).
  apply map_nth.
Qed.

Lemma nth_map_seq {B : Type} (f : nat -> B) (n k : nat) (d : B) :
  (k < n)%nat -> nth k (map f (seq 0 n)) d = f k.
Proof.
  intro H. rewrite (nth_map_lt f _ k 0%nat) by (rewrite length_seq; exact H).
  rewrite seq_nth by exact H. reflexivity.
Qed.

Lemma length_zip_with {A B C : Type} (f : A -> B -> C) (l : list A) (m : list B) :
  length (zip_with f l m) = Nat.min (length l) (length m).
Proof. unfold zip_with. rewrite length_map, length_combine. reflexivity. Qed.

Lemma nth_combine_lt {A B : Type} (l : list A) (m : list B) (k : nat) (da : A) (db : B) :
  (k < length l)%nat -> (k < length m)%nat ->
  nth k (combine l m) (da, db) = (nth k l da, nth k m db).
Proof.
  revert m k. induction l as [ | a l IH]; intros [ | b m] [ | k] Hl Hm;
    simpl in *; try lia; [reflexivity | ].
  apply IH; lia.
Qed.

Lemma nth_zip_with {A B C : Type} (f : A -> B -> C) (l : list A) (m : list B)
      (k : nat) (da : A) (db : B) (dc : C) :
  (k < length l)%nat -> (k < length m)%nat ->
  nth k (zip_with f l m) dc = f (nth k l da) (nth k m db).
Proof.
  intros Hl Hm. unfold zip_with.
  rewrite (nth_map_lt _ _ k (da, db)) by (rewrite length_combine; lia).
  rewrite nth_combine_lt by assumption. reflexivity.
Qed.

Lemma channel_of_cons (d e : nat) (s small : list nat) (k : nat) :
  channel_of (d :: s) (e :: small) k
  = ((if Nat.eqb e 1 then 0 else k / numel s) * numel small
     + channel_of s small (k mod numel s))%nat.
Proof. reflexivity. Qed.

(** The element an operand of shape [small] contributes at position [k]
    exists. *)
Lemma channel_of_lt (small s : list nat) (k : nat) :
  broadcastable small s = true ->
  (k < numel s)%nat ->
  (channel_of s small k < numel small)%nat.
Proof.
  revert s k. induction small as [ | e small IH]; intros [ | d s] k Hb Hk;
    try discriminate.
  - unfold channel_of; simpl; lia.
  - simpl in Hb. apply andb_true_iff in Hb. destruct Hb as [He Hb].
    change (numel (d :: s)) with (d * numel s)%nat in Hk.
    assert (Hs : numel s <> 0%nat) by (intro H0; rewrite H0 in Hk; lia).
    assert (Hm : (k mod numel s < numel s)%nat) by (apply Nat.mod_upper_bound; exact Hs).
    specialize (IH s _ Hb Hm).
    rewrite channel_of_cons.
    change (numel (e :: small)) with (e * numel small)%nat.
    destruct (Nat.eqb e 1) eqn:E1.
    + apply Nat.eqb_eq in E1. subst e. lia.
    + simpl in He. apply Nat.eqb_eq in He. subst e.
      assert (Hq : (k / numel s < d)%nat)
        by (apply Nat.Div0.div_lt_upper_bound; lia).
      nia.
Qed.

(** An operand of the full shape contributes its own element. *)
Lemma channel_of_same (s : list nat) (k : nat) :
  (k < numel s)%nat -> channel_of s s k = k.
Proof.
  revert k. induction s as [ | d s IH]; intros k Hk.
  - simpl in Hk. unfold channel_of. simpl. lia.
  - change (numel (d :: s)) with (d * numel s)%nat in Hk.
    assert (Hs : numel s <> 0%nat) by (intro H0; rewrite H0 in Hk; lia).
    assert (Hm : (k mod numel s < numel s)%nat) by (apply Nat.mod_upper_bound; exact Hs).
    rewrite channel_of_cons, (IH _ Hm).
    destruct (Nat.eqb d 1) eqn:E1.
    + apply Nat.eqb_eq in E1. subst d. rewrite Nat.mod_small by lia. lia.
    + pose proof (Nat.div_mod_eq k (numel s)). lia.
Qed.

Lemma broadcastable_keepdims_from (i : nat) (axes s : list nat) :
  broadcastable (keepdims_from i axes s) s = true.
Proof.
  revert i. induction s as [ | d s IH]; intro i; simpl; [reflexivity | ].
  rewrite IH, andb_true_r.
  destruct (existsb (Nat.eqb i) axes); [reflexivity | ].
  rewrite Nat.eqb_refl. apply orb_true_r.
Qed.

Lemma broadcastable_keepdims (axes s : list nat) :
  broadcastable (keepdims_shape axes s) s = true.
Proof. apply broadcastable_keepdims_from. Qed.

Lemma length_keepdims_from (i : nat) (axes s : list nat) :
  length (keepdims_from i axes s) = length s.
Proof.
  revert i. induction s as [ | d s IH]; intro i; simpl; [reflexivity | ].
  rewrite IH. reflexivity.
Qed.

Lemma shape_eqb_eq (a b : list nat) : shape_eqb a b = true <-> a = b.
Proof.
  unfold shape_eqb. destruct (list_eq_dec Nat.eq_dec a b); split; congruence.
Qed.

(** What broadcasting reads. *)
Lemma expand_to_spec (s : list nat) (t : FloatTensor) :
  broadcastable (fshape t) s = true ->
  length (fdata t) = numel (fshape t) ->
  exists l, expand_to s t = Ok l
            /\ length l = numel s
            /\ forall k, (k < numel s)%nat ->
                         nth k l 0%Q = nth (channel_of s (fshape t) k) (fdata t) 0%Q.
Proof.
  intros Hb Hwf. unfold expand_to.
  destruct (shape_eqb s (fshape t)) eqn:E.
  - apply shape_eqb_eq in E. subst s.
    exists (fdata t). split; [reflexivity | split; [exact Hwf | ]].
    intros k Hk. rewrite channel_of_same by exact Hk. reflexivity.
  - rewrite Hb. eexists; split; [reflexivity | split].
    + rewrite length_map, length_seq. reflexivity.
    + intros k Hk. rewrite nth_map_seq by exact Hk. reflexivity.
Qed.

Lemma binop_spec (f : Q -> Q -> Q) (a b : FloatTensor) :
  broadcastable (fshape b) (fshape a) = true ->
  length (fdata a) = numel (fshape a) ->
  length (fdata b) = numel (fshape b) ->
  exists r, binop f a b = Ok r
            /\ fshape r = fshape a
            /\ fdtype r = fdtype a
            /\ length (fdata r) = numel (fshape a)
            /\ forall k, (k < numel (fshape a))%nat ->
                 nth k (fdata r) 0%Q
                 = f (nth k (fdata a) 0%Q)
                     (nth (channel_of (fshape a) (fshape b) k) (fdata b) 0%Q).
Proof.
  intros Hb Ha Hbw.
  destruct (expand_to_spec (fshape a) b Hb Hbw) as [l [Hl [Hlen Hnth]]].
  unfold binop. rewrite Hl. cbn [bind].
  eexists; split; [reflexivity | ]. cbn [fshape fdtype fdata].
  repeat split.
  - rewrite length_zip_with, Ha, Hlen. apply Nat.min_id.
  - intros k Hk.
    rewrite (nth_zip_with f _ _ k 0%Q 0%Q) by lia.
    rewrite Hnth by exact Hk. reflexivity.
Qed.

Lemma broadcastable_refl (s : list nat) : broadcastable s s = true.
Proof.
  induction s as [ | d s IH]; simpl; [reflexivity | ].
  rewrite IH, Nat.eqb_refl, orb_true_r. reflexivity.
Qed.

(** Same-shape operands combine position by position. *)
Lemma binop_same_shape (f : Q -> Q -> Q) (a b : FloatTensor) :
  fshape b = fshape a ->
  length (fdata a) = numel (fshape a) ->
  length (fdata b) = numel (fshape b) ->
  exists r, binop f a b = Ok r
            /\ fshape r = fshape a
            /\ fdtype r = fdtype a
            /\ length (fdata r) = numel (fshape a)
            /\ forall k, (k < numel (fshape a))%nat ->
                 nth k (fdata r) 0%Q = f (nth k (fdata a) 0%Q) (nth k (fdata b) 0%Q).
Proof.
  intros Hs Ha Hbw.
  destruct (binop_spec f a b) as [r [Hr [H1 [H2 [H3 H4]]]]]; try assumption.
  - rewrite Hs. apply broadcastable_refl.
  - exists r. repeat split; try assumption.
    intros k Hk. rewrite (H4 k Hk), Hs, channel_of_same by exact Hk. reflexivity.
Qed.

Lemma reduce_spec (agg : list Q -> Q) (t : FloatTensor) (axes : list nat) :
  existsb (fun a => Nat.eqb (nth a (fshape t) 1%nat) 0) axes = false ->
  exists r, reduce agg t axes = Ok r
            /\ fshape r = keepdims_shape axes (fshape t)
            /\ fdtype r = fdtype t
            /\ length (fdata r) = numel (keepdims_shape axes (fshape t))
            /\ forall c, (c < numel (keepdims_shape axes (fshape t)))%nat ->
                 nth c (fdata r) 0%Q
                 = agg (channel_values t (keepdims_shape axes (fshape t)) c).
Proof.
  intro H. unfold reduce. rewrite H.
  eexists; split; [reflexivity | ]. cbn [fshape fdtype fdata].
  repeat split.
  - rewrite length_map, length_seq. reflexivity.
  - intros c Hc. rewrite nth_map_seq by exact Hc. reflexivity.
Qed.

(** ** Rounding *)

#[local] Open Scope Q_scope.


Lemma round_half_even_nearest (x : Q) : nearest_even x (round_half_even x).
Proof.
  unfold round_half_even, nearest_even.
  pose proof (Qfloor_le x) as Hlo. pose proof (Qlt_floor x) as Hhi.
  rewrite inject_Z_plus in Hhi. change (inject_Z 1) with 1 in Hhi.
  set (f := Qfloor x) in *.
  destruct (Qcompare_spec (x - inject_Z f) (1 # 2)) as [He | Hl | Hg].
  - destruct (Z.even f) eqn:Ev.
    + right. split; [right; lra | exact Ev].
    + right. split.
      * left. rewrite inject_Z_plus. change (inject_Z 1) with 1. lra.
      * rewrite Z.even_add, Ev. reflexivity.
  - left. lra.
  - left. rewrite inject_Z_plus. change (inject_Z 1) with 1. lra.
Qed.





Lemma nearest_even_error (x : Q) (z : Z) :
  nearest_even x z -> Qabs (inject_Z z - x) <= 1 # 2.
Proof.
  unfold nearest_even. intro H. apply Qabs_Qle_condition.
  destruct H as [[H1 H2] | [[H1 | H1] _]]; lra.
Qed.


Lemma round_half_even_error (x : Q) :
  Qabs (inject_Z (round_half_even x) - x) <= 1 # 2.
Proof. apply nearest_even_error, round_half_even_nearest. Qed.


Lemma Qtrunc_comp (x y : Q) : x == y -> Qtrunc x = Qtrunc y.
Proof.
  intro H. unfold Qtrunc.
  rewrite (Qfloor_comp x y H), (Qceiling_comp x y H).
  assert (Hc : Qle_bool 0 x = Qle_bool 0 y) by (apply Qleb_comp; [reflexivity | exact H]).
  rewrite Hc. reflexivity.
Qed.

Lemma Qtrunc_Z (z : Z) : Qtrunc (inject_Z z) = z.
Proof.
  unfold Qtrunc. rewrite Qfloor_Z, Qceiling_Z. destruct (Qle_bool 0 (inject_Z z)); reflexivity.
Qed.

Lemma clipQ_Z (z lo hi : Z) : clipQ (inject_Z z) lo hi == inject_Z (clipZ z lo hi).
Proof.
  unfold clipQ, clipZ.
  destruct (Q.max_spec (inject_Z z) (inject_Z lo)) as [[H1 H2] | [H1 H2]];
    destruct (Q.min_spec (Qmax (inject_Z z) (inject_Z lo)) (inject_Z hi)) as [[H3 H4] | [H3 H4]];
    rewrite H4; rewrite H2 in H3; try rewrite H2;
    rewrite <- ?Zlt_Qlt, <- ?Zle_Qle in *;
    apply inject_Z_injective; lia.
Qed.

#[local] Close Scope Q_scope.

(** ** Channel statistics *)












Lemma channel_values_elements (w : FloatTensor) (small : list nat) (c : nat) (x : Q) :
  In x (channel_values w small c) ->
  exists k, (k < numel (fshape w))%nat
            /\ channel_of (fshape w) small k = c
            /\ x = nth k (fdata w) 0%Q.
Proof.
  unfold channel_values. intro H. apply in_map_iff in H.
  destruct H as [k [Hx Hk]]. apply filter_In in Hk. destruct Hk as [Hk Hc].
  apply in_seq in Hk. apply Nat.eqb_eq in Hc.
  exists k. repeat split; [lia | exact Hc | symmetry; exact Hx].
Qed.



Lemma reducible_spec (w : FloatTensor) (axes : list nat) :
  reducible w axes = true ->
  existsb (fun a => Nat.eqb (nth a (fshape w) 1%nat) 0) axes = false.
Proof. unfold reducible. intro H. apply negb_true_iff in H. exact H. Qed.

(** ** The epsilon floor *)

Lemma floor_eps_abs (s : Q) : (eps <= Qabs (floor_eps s))%Q.
Proof.
  unfold floor_eps. destruct (Qle_bool eps (Qabs s)) eqn:E.
  - apply Qle_bool_iff. exact E.
  - vm_compute. discriminate.
Qed.



(** ** The parameter calculator *)

Lemma nth_pointwise (f : Q -> Q) (a : FloatTensor) (k : nat) :
  (k < length (fdata a))%nat ->
  nth k (fdata (pointwise f a)) 0%Q = f (nth k (fdata a) 0%Q).
Proof. intro H. cbn [pointwise fdata]. apply nth_map_lt. exact H. Qed.

Lemma sym_stats_spec (w : FloatTensor) (axes : list nat) :
  reducible w axes = true ->
  exists a m, sym_stats w axes = Ok (a, m)
    /\ fshape a = keepdims_shape axes (fshape w)
    /\ fshape m = keepdims_shape axes (fshape w)
    /\ fdtype a = fdtype w
    /\ length (fdata a) = numel (keepdims_shape axes (fshape w))
    /\ length (fdata m) = numel (keepdims_shape axes (fshape w))
    /\ forall c, (c < numel (keepdims_shape axes (fshape w)))%nat ->
         nth c (fdata a) 0%Q = Qabs (channel_min w axes c)
         /\ nth c (fdata m) 0%Q = channel_max w axes c.
Proof.
  intro Hr. apply reducible_spec in Hr.
  destruct (reduce_spec Qlist_min w axes Hr) as [mn [Hmn [S1 [D1 [L1 N1]]]]].
  destruct (reduce_spec Qlist_max w axes Hr) as [mx [Hmx [S2 [D2 [L2 N2]]]]].
  unfold sym_stats, amin, amax. rewrite Hmn. cbn [bind]. rewrite Hmx. cbn [bind].
  eexists; eexists; split; [reflexivity | ].
  cbn [pointwise fshape fdtype fdata]. rewrite length_map.
  repeat split; try assumption.
  - rewrite (nth_map_lt Qabs _ c 0%Q) by lia. rewrite N1 by exact H. reflexivity.
  - rewrite N2 by exact H. reflexivity.
Qed.

(** The symmetric scale of each channel. *)
Lemma sym_params_spec (w : FloatTensor) (axes : list nat) (n : Z) :
  reducible w axes = true ->
  exists s, sym_params w axes n = Ok s
    /\ fshape s = keepdims_shape axes (fshape w)
    /\ fdtype s = fdtype w
    /\ length (fdata s) = numel (keepdims_shape axes (fshape w))
    /\ forall c, (c < numel (keepdims_shape axes (fshape w)))%nat ->
         nth c (fdata s) 0%Q
         = floor_eps (sym_extremum (Qabs (channel_min w axes c)) (channel_max w axes c)
                      / inject_Z (2 ^ (n - 1)))%Q.
Proof.
  intro Hr.
  destruct (sym_stats_spec w axes Hr) as [a [m [Hst [S1 [S2 [D1 [L1 [L2 N]]]]]]]].
  destruct (binop_same_shape sym_extremum a m) as [r [Hb [S3 [D3 [L3 N3]]]]].
  - congruence.
  - congruence.
  - congruence.
  - unfold sym_params. rewrite Hst. cbn [bind fst snd]. rewrite Hb. cbn [bind].
    eexists; split; [reflexivity | ].
    cbn [pointwise fshape fdtype fdata]. rewrite !length_map.
    rewrite S1 in S3, L3, N3.
    repeat split; try congruence.
    intros c Hc.
    rewrite (nth_map_lt floor_eps _ c 0%Q) by (rewrite length_map; lia).
    rewrite (nth_map_lt _ _ c 0%Q) by lia.
    rewrite (N3 c Hc). destruct (N c Hc) as [-> ->]. reflexivity.
Qed.

(** The asymmetric scale and zero point of each channel, as computed. *)
Lemma asym_params_spec (w : FloatTensor) (axes : list nat) (n : Z) :
  reducible w axes = true ->
  exists s zp, asym_params w axes n = Ok (s, zp)
    /\ fshape s = keepdims_shape axes (fshape w)
    /\ ishape zp = keepdims_shape axes (fshape w)
    /\ fdtype s = float32
    /\ idtype zp = int32
    /\ length (fdata s) = numel (keepdims_shape axes (fshape w))
    /\ length (idata zp) = numel (keepdims_shape axes (fshape w))
    /\ forall c, (c < numel (keepdims_shape axes (fshape w)))%nat ->
         nth c (fdata s) 0%Q
         = floor_eps ((channel_max w axes c - channel_min w axes c)
                      / inject_Z (2 ^ n - 1 - 0 + 1 - 1))%Q
         /\ nth c (idata zp) 0
            = clipZ (float_to_int int32
                       (inject_Z 0
                        - inject_Z (round_half_even
                                      (channel_min w axes c / nth c (fdata s) 0%Q)))%Q)
                    0 (2 ^ n - 1).
Proof.
  intro Hr. apply reducible_spec in Hr.
  destruct (reduce_spec Qlist_min w axes Hr) as [mn [Hmn [S1 [D1 [L1 N1]]]]].
  destruct (reduce_spec Qlist_max w axes Hr) as [mx [Hmx [S2 [D2 [L2 N2]]]]].
  set (K := keepdims_shape axes (fshape w)) in *.
  destruct (binop_same_shape Qminus mx mn) as [d [Hd [S3 [D3 [L3 N3]]]]];
    [congruence | congruence | congruence | ].
  rewrite S2 in S3, L3, N3.
  set (sc := pointwise floor_eps
               (to_float float32
                  (TFloat (pointwise (fun x => x / inject_Z (2 ^ n - 1 - 0 + 1 - 1))%Q d)))).
  assert (Ssc : fshape sc = K) by exact S3.
  assert (Lsc : length (fdata sc) = numel K)
    by (unfold sc; cbn [pointwise to_float fdata]; rewrite !length_map; exact L3).
  assert (Nsc : forall c, (c < numel K)%nat ->
            nth c (fdata sc) 0%Q
            = floor_eps ((channel_max w axes c - channel_min w axes c)
                         / inject_Z (2 ^ n - 1 - 0 + 1 - 1))%Q).
  { intros c Hc. unfold sc. cbn [pointwise to_float fdata fshape fdtype].
    rewrite (nth_map_lt floor_eps _ c 0%Q) by (rewrite length_map; lia).
    rewrite (nth_map_lt _ _ c 0%Q) by lia.
    rewrite (N3 c Hc), (N1 c Hc), (N2 c Hc). reflexivity. }
  destruct (binop_same_shape Qdiv mn sc) as [q [Hq [S4 [D4 [L4 N4]]]]];
    [congruence | congruence | congruence | ].
  rewrite S1 in S4, L4, N4.
  unfold asym_params, amin, amax.
  rewrite Hmn. cbn [bind]. rewrite Hmx. cbn [bind]. rewrite Hd. cbn [bind].
  fold sc. rewrite Hq. cbn [bind].
  eexists; eexists; split; [reflexivity | ].
  cbn [to_int pointwise fshape fdata ishape idata idtype].
  rewrite !length_map.
  repeat split; try assumption; try reflexivity.
  - apply Nsc; assumption.
  - rewrite (nth_map_lt _ _ c 0) by (rewrite !length_map; lia).
    rewrite (nth_map_lt _ _ c 0%Q) by (rewrite length_map; lia).
    rewrite (nth_map_lt _ _ c 0%Q) by lia.
    rewrite (N4 c H), (N1 c H). reflexivity.
Qed.

(** ** Codes, element by element *)

Lemma float_to_int_clipQ (dt : int_dtype) (r lo hi : Z) :
  dtype_min dt <= lo -> lo <= hi -> hi <= dtype_max dt ->
  float_to_int dt (clipQ (inject_Z r) lo hi) = clipZ r lo hi.
Proof.
  intros H1 H2 H3. unfold float_to_int.
  rewrite (Qtrunc_comp _ _ (clipQ_Z r lo hi)), Qtrunc_Z.
  pose proof (clipZ_range r lo hi H2). apply clipZ_id. lia.
Qed.

Lemma quantize_weight_spec (w scale : FloatTensor) (zp : option IntTensor)
      (n : Z) (asym : bool) :
  n = 4 \/ n = 8 ->
  well_formed w -> well_formed scale ->
  broadcastable (fshape scale) (fshape w) = true ->
  (forall z, zp = Some z ->
             broadcastable (ishape z) (fshape w) = true
             /\ length (idata z) = numel (ishape z)) ->
  exists cw, quantize_weight w scale zp n asym = Ok cw
    /\ idtype cw = quant_dtype asym
    /\ ishape cw = fshape w
    /\ length (idata cw) = numel (fshape w)
    /\ forall k, (k < numel (fshape w))%nat ->
         nth k (idata cw) 0
         = clipZ (round_half_even
                    (shifted_quotient zp (fshape w) k
                       (nth k (fdata w) 0%Q
                        / nth (channel_of (fshape w) (fshape scale) k) (fdata scale) 0%Q)%Q))
                 (quant_level_low n asym) (quant_level_high n asym).
Proof.
  intros Hn Hw Hs Hb Hz. unfold well_formed in *.
  destruct (binop_spec Qdiv w scale Hb Hw Hs) as [q [Hq [S1 [D1 [L1 N1]]]]].
  destruct (quant_levels n asym Hn) as [Hl1 [Hl2 Hl3]].
  assert (Hq2 : exists q2,
             match zp with
             | Some z => binop Qplus q (to_float (fdtype w) (TInt z))
             | None => Ok q
             end = Ok q2
             /\ fshape q2 = fshape w
             /\ length (fdata q2) = numel (fshape w)
             /\ forall k, (k < numel (fshape w))%nat ->
                  nth k (fdata q2) 0%Q
                  = shifted_quotient zp (fshape w) k
                      (nth k (fdata w) 0%Q
                       / nth (channel_of (fshape w) (fshape scale) k) (fdata scale) 0%Q)%Q).
  { destruct zp as [z | ].
    - destruct (Hz z eq_refl) as [Hbz Hlz].
      destruct (binop_spec Qplus q (to_float (fdtype w) (TInt z))) as [q2 [Hq2 [S2 [D2 [L2 N2]]]]].
      + cbn [to_float fshape]. rewrite S1. exact Hbz.
      + rewrite S1. exact L1.
      + cbn [to_float fshape fdata]. rewrite length_map. exact Hlz.
      + exists q2. rewrite S1 in *. repeat split; try assumption.
        intros k Hk. rewrite (N2 k Hk), (N1 k Hk).
        cbn [to_float fshape fdata shifted_quotient zero_point_at].
        rewrite (nth_map_lt inject_Z _ _ 0).
        * reflexivity.
        * rewrite Hlz. apply channel_of_lt; assumption.
    - exists q. repeat split; try assumption. }
  destruct Hq2 as [q2 [Hq2 [S2 [L2 N2]]]].
  unfold quantize_weight. rewrite Hq. cbn [bind]. rewrite Hq2. cbn [bind].
  eexists; split; [reflexivity | ].
  cbn [to_int pointwise fshape fdata ishape idata idtype]. rewrite !length_map.
  repeat split; try assumption.
  intros k Hk.
  rewrite (nth_map_lt _ _ k 0%Q) by (rewrite !length_map; lia).
  rewrite (nth_map_lt _ _ k 0%Q) by (rewrite length_map; lia).
  rewrite (nth_map_lt _ _ k 0%Q) by lia.
  rewrite (N2 k Hk). apply float_to_int_clipQ; assumption.
Qed.

(** ** Dequantization, element by element *)



(** ** Packing followed by the decompressor *)









Lemma round_in_levels_near (y : Q) (lo hi : Z) :
  lo <= round_half_even y <= hi ->
  (inject_Z lo - (1 # 2) <= y <= inject_Z hi + (1 # 2))%Q.
Proof.
  intros [H1 H2].
  pose proof (round_half_even_error y) as He.
  apply Qabs_Qle_condition in He.
  rewrite Zle_Qle in H1, H2. lra.
Qed.









(** ** The round trip through the pass *)




(** ** Properties of the parameter calculator *)

Lemma Forall_floor_eps (l : list Q) :
  Forall (fun x => (eps <= Qabs x)%Q) (map floor_eps l).
Proof.
  apply Forall_map_iff. apply Forall_forall. intros x _. apply floor_eps_abs.
Qed.

(** X1.  Whatever the weight, the axes and the bit width, no entry of a
    computed scale is smaller in magnitude than the float32 epsilon, in
    symmetric and in asymmetric mode; in particular no entry is zero. *)
Theorem scale_never_below_eps (w : FloatTensor) (axes : list nat) (n : Z) :
  (forall s, sym_params w axes n = Ok s ->
             Forall (fun x => (eps <= Qabs x)%Q /\ ~ (x == 0)%Q) (fdata s))
  /\ (forall s zp, asym_params w axes n = Ok (s, zp) ->
                   Forall (fun x => (eps <= Qabs x)%Q /\ ~ (x == 0)%Q) (fdata s)).
Proof.
  assert (Hnz : forall l, Forall (fun x => (eps <= Qabs x)%Q) l ->
                          Forall (fun x => (eps <= Qabs x)%Q /\ ~ (x == 0)%Q) l).
  { intros l H. eapply Forall_impl; [ | exact H]. simpl. intros x Hx. split; [exact Hx | ].
    intro H0. rewrite H0 in Hx. vm_compute in Hx. apply Hx. reflexivity. }
  split.
  - intros s H. unfold sym_params in H.
    apply bind_Ok in H. destruct H as [st [_ H]].
    apply bind_Ok in H. destruct H as [r [_ H]].
    injection H as <-. apply Hnz. cbn [pointwise fdata]. apply Forall_floor_eps.
  - intros s zp H. unfold asym_params in H.
    apply bind_Ok in H. destruct H as [mn [_ H]].
    apply bind_Ok in H. destruct H as [mx [_ H]].
    apply bind_Ok in H. destruct H as [d [_ H]].
    apply bind_Ok in H. destruct H as [q [_ H]].
    injection H as <- _. apply Hnz. cbn [pointwise fdata]. apply Forall_floor_eps.
Qed.

Lemma scale_never_below_eps_witness :
  exists s, sym_params sample_weight [0; 1]%nat 8 = Ok s
            /\ Forall (fun x => (eps <= Qabs x)%Q /\ ~ (x == 0)%Q) (fdata s).
Proof.
  eexists. split; [vm_compute; reflexivity | ].
  apply (proj1 (scale_never_below_eps sample_weight [0; 1]%nat 8)).
  vm_compute; reflexivity.
Defined.








(** The spec's scenario [[1.0, -2.0], [3.0, -0.5]], 8 bits, reduced over the
    whole tensor: [w_abs_min] is [|min| = 2], not the least magnitude 0.5;
    [w_max] is 3 and the scale is [-3/128]. *)
Example symmetric_scenario :
  sym_stats sample_weight [0; 1]%nat
  = Ok (mkFloat float32 [1; 1]%nat [2]%Q, mkFloat float32 [1; 1]%nat [3]%Q)
  /\ sym_params sample_weight [0; 1]%nat 8
     = Ok (mkFloat float32 [1; 1]%nat [-3 # 128]%Q).
Proof. split; vm_compute; reflexivity. Qed.

(** ** The round trip of a quantized layer *)









(** ** More on the nibble packer *)

Lemma pack_byte_mod (a b : Z) : pack_byte (a, b) = pack_byte (a mod 16, b mod 16).
Proof.
  unfold pack_byte. cbn [fst snd wrap].
  change 15 with (Z.ones 4). rewrite !Z.land_ones by lia.
  change (2 ^ 4) with 16. rewrite Z.mod_mod by lia.
  rewrite !Z.shiftl_mul_pow2 by lia. change (2 ^ 4) with 16.
  change 256 with (16 * 16).
  rewrite !Z.mul_mod_distr_r by lia. rewrite Z.mod_mod by lia. reflexivity.
Qed.

Lemma pack_byte_value (a b : Z) :
  pack_byte (a, b) = a mod 16 + 16 * (b mod 16)
  /\ Z.land (pack_byte (a, b)) 15 = a mod 16
  /\ Z.shiftr (pack_byte (a, b)) 4 = b mod 16.
Proof.
  rewrite pack_byte_mod.
  apply nibble_roundtrip.
  - pose proof (Z.mod_pos_bound a 16). lia.
  - pose proof (Z.mod_pos_bound b 16). lia.
Qed.

Lemma pairs_odd (l : list Z) : Nat.even (length l) = false -> pairs l = None.
Proof.
  induction l as [ | a | a b l IH] using list_pair_ind; intro H.
  - discriminate.
  - reflexivity.
  - simpl. rewrite (IH H). reflexivity.
Qed.

Lemma unpack_pack_pairs_mod (l : list Z) (ps : list (Z * Z)) :
  pairs l = Some ps ->
  flat_map (fun p => [Z.land p 15; Z.shiftr p 4]) (map pack_byte ps)
  = map (fun v => v mod 16) l
  /\ Forall (fun p => 0 <= p <= 255) (map pack_byte ps).
Proof.
  revert ps. induction l as [ | a | a b l IH] using list_pair_ind; intros ps Hp.
  - injection Hp as <-. split; [reflexivity | constructor].
  - discriminate.
  - simpl in Hp. destruct (pairs l) as [qs | ] eqn:Hq; [ | discriminate].
    injection Hp as <-.
    destruct (pack_byte_value a b) as [H0 [H1 H2]].
    destruct (IH qs eq_refl) as [IH1 IH2].
    simpl. rewrite H1, H2, IH1. split; [reflexivity | ].
    constructor; [ | exact IH2].
    pose proof (Z.mod_pos_bound a 16). pose proof (Z.mod_pos_bound b 16). lia.
Qed.

(** X6.  [pack_uint4] succeeds exactly on a non-empty uint8 tensor with an
    even number of elements, and fails with [RuntimeError] (never
    [ValueError]) otherwise.  On success the result is a uint8 column of
    half as many bytes, each in [[0, 255]], and unpacking returns every
    element reduced modulo 16: the packer itself does not check that its
    input fits a nibble, it drops the high bits. *)
Theorem pack_uint4_behaviour (t : IntTensor) :
  (is_Ok (pack_uint4 t) = true
   <-> idtype t = uint8 /\ idata t <> [] /\ Nat.even (length (idata t)) = true)
  /\ is_ValueError (pack_uint4 t) = false
  /\ forall p, pack_uint4 t = Ok p ->
       idtype p = uint8
       /\ ishape p = [length (idata p); 1%nat]
       /\ (2 * length (idata p) = length (idata t))%nat
       /\ Forall (fun b => 0 <= b <= 255) (idata p)
       /\ idata (unpack_uint4 p) = map (fun v => v mod 16) (idata t)
       /\ ishape (unpack_uint4 p) = [length (idata p); 1%nat; 2%nat].
Proof.
  split; [ | split; [apply pack_uint4_not_ValueError | ]].
  - unfold pack_uint4. split.
    + intro H. destruct (idtype t); try discriminate.
      destruct (idata t) as [ | a l] eqn:Hd; [discriminate | ].
      destruct (pairs (a :: l)) as [ps | ] eqn:Hp; [ | discriminate].
      repeat split; [discriminate | apply (pairs_Some_even _ _ Hp)].
    + intros [Hdt [Hne Hev]]. rewrite Hdt.
      destruct (pairs_even _ Hev) as [ps [Hps _]]. rewrite Hps.
      destruct (idata t); [congruence | reflexivity].
  - intros p H. unfold pack_uint4 in H.
    destruct (idtype t); try discriminate.
    destruct (idata t) as [ | a l] eqn:Hd; [discriminate | ].
    destruct (pairs (a :: l)) as [ps | ] eqn:Hp; [ | discriminate].
    injection H as <-. cbn [idtype ishape idata unpack_uint4].
    destruct (unpack_pack_pairs_mod _ _ Hp) as [Hu Hr].
    destruct (pairs_even _ (pairs_Some_even _ _ Hp)) as [ps' [Hps' Hlen]].
    rewrite Hp in Hps'. injection Hps' as <-.
    rewrite length_map.
    repeat split; try assumption; reflexivity.
Qed.

Lemma pack_uint4_behaviour_witness :
  exists p, pack_uint4 wide_uint8_tensor_example = Ok p
            /\ idata (unpack_uint4 p) = [15; 0].
Proof.
  exists (mkInt uint8 [1; 1]%nat [15]). split; [reflexivity | ].
  apply (proj1 (proj2 (proj2 (proj2 (proj2
           (proj2 (proj2 (pack_uint4_behaviour wide_uint8_tensor_example))
                  (mkInt uint8 [1; 1]%nat [15]) eq_refl)))))).
Defined.

Lemma byte_split (b : Z) :
  0 <= b <= 255 ->
  0 <= Z.land b 15 <= 15 /\ 0 <= Z.shiftr b 4 <= 15
  /\ pack_byte (Z.land b 15, Z.shiftr b 4) = b.
Proof.
  intro H.
  assert (E1 : Z.land b 15 = b mod 16)
    by (change 15 with (Z.ones 4); rewrite Z.land_ones by lia; reflexivity).
  assert (E2 : Z.shiftr b 4 = b / 16)
    by (rewrite Z.shiftr_div_pow2 by lia; reflexivity).
  rewrite E1, E2.
  pose proof (Z.mod_pos_bound b 16 ltac:(lia)) as Hm.
  assert (Hd : 0 <= b / 16 <= 15).
  { split; [apply Z.div_pos; lia | ].
    apply Z.lt_succ_r. apply Z.div_lt_upper_bound; lia. }
  split; [lia | split; [exact Hd | ]].
  destruct (nibble_roundtrip (b mod 16) (b / 16)) as [Hp _]; [lia | exact Hd | ].
  rewrite Hp. pose proof (Z.div_mod b 16 ltac:(lia)). lia.
Qed.

Lemma pairs_flat_map (bs : list Z) :
  pairs (flat_map (fun p => [Z.land p 15; Z.shiftr p 4]) bs)
  = Some (map (fun p => (Z.land p 15, Z.shiftr p 4)) bs).
Proof.
  induction bs as [ | b bs IH]; [reflexivity | ].
  cbn [flat_map app map pairs]. rewrite IH. reflexivity.
Qed.

(** X7.  Unpacking a non-empty tensor of bytes always yields legal nibbles,
    two per byte, and packing them again returns the bytes: [unpack_uint4]
    loses nothing.  The signed unpacker yields values in [[-8, 7]]. *)
Theorem unpack_then_pack_bytes (p : IntTensor) :
  idtype p = uint8 ->
  idata p <> [] ->
  Forall (fun b => 0 <= b <= 255) (idata p) ->
  Forall (fun v => 0 <= v <= 15) (idata (unpack_uint4 p))
  /\ length (idata (unpack_uint4 p)) = (2 * length (idata p))%nat
  /\ pack_uint4 (unpack_uint4 p) = Ok (mkInt uint8 [length (idata p); 1%nat] (idata p))
  /\ Forall (fun v => -8 <= v <= 7) (idata (unpack_int4 p))
  /\ idtype (unpack_int4 p) = int8.
Proof.
  intros Hdt Hne Hr.
  assert (Hn : Forall (fun v => 0 <= v <= 15) (idata (unpack_uint4 p))).
  { cbn [unpack_uint4 idata]. clear Hne.
    induction Hr as [ | b l Hb Hl IH]; [constructor | ].
    destruct (byte_split b Hb) as [H1 [H2 _]].
    cbn [flat_map app]. constructor; [exact H1 | constructor; [exact H2 | exact IH]]. }
  split; [exact Hn | ]. split.
  { cbn [unpack_uint4 idata]. clear. induction (idata p) as [ | b l IH]; [reflexivity | ].
    cbn [flat_map app length]. rewrite IH. lia. }
  split.
  { unfold pack_uint4. cbn [unpack_uint4 idtype idata]. rewrite Hdt, pairs_flat_map.
    destruct (idata p) as [ | b l] eqn:Hd; [congruence | ].
    cbn [flat_map app]. rewrite length_map, map_map. f_equal. f_equal.
    apply (map_id_on _ (fun b => 0 <= b <= 255)); [ | exact Hr].
    intros x Hx. apply (byte_split x Hx). }
  split; [ | reflexivity].
  unfold unpack_int4. cbn [to_int idata ishape].
  rewrite !Forall_map_iff. eapply Forall_impl; [ | exact Hn].
  intros v Hv. cbn beta in Hv |- *. unfold wrap.
  rewrite (Z.mod_small (v + 128) 256) by lia.
  replace (v + 128 - 128 - 8 + 128) with (v + 120) by lia.
  rewrite (Z.mod_small (v + 120) 256) by lia. lia.
Qed.

Lemma unpack_then_pack_bytes_witness :
  pack_uint4 (unpack_uint4 byte_tensor_example) = Ok byte_tensor_example.
Proof.
  apply (proj1 (proj2 (proj2 (unpack_then_pack_bytes byte_tensor_example
                                eq_refl ltac:(discriminate)
                                ltac:(repeat constructor; simpl; lia))))).
Defined.

(** ** Four bits need pairs *)

Lemma pack_uint4_odd (t : IntTensor) :
  Nat.even (length (idata t)) = false -> exists msg, pack_uint4 t = RuntimeError msg.
Proof.
  intro H. unfold pack_uint4. destruct (idtype t); try (eexists; reflexivity).
  rewrite (pairs_odd _ H). destruct (idata t); eexists; reflexivity.
Qed.

Lemma pack_int4_odd (t : IntTensor) :
  Nat.even (length (idata t)) = false -> exists msg, pack_int4 t = RuntimeError msg.
Proof.
  intro H. unfold pack_int4. destruct (idtype t); try (eexists; reflexivity).
  apply pack_uint4_odd. cbn [to_int idata]. rewrite !length_map. exact H.
Qed.

Lemma compress_weight_sym4_odd (w : FloatTensor) (axes : list nat) (td : float_dtype) :
  well_formed w -> reducible w axes = true ->
  Nat.even (numel (fshape w)) = false ->
  exists msg, compress_weight w axes 4 false td = RuntimeError msg.
Proof.
  intros Hw Hr Hodd.
  destruct (sym_params_spec w axes 4 Hr) as [s [Hs [S1 [D1 [L1 N1]]]]].
  assert (Hb : broadcastable (fshape s) (fshape w) = true)
    by (rewrite S1; apply broadcastable_keepdims).
  assert (Hws : well_formed s) by (unfold well_formed; congruence).
  destruct (quantize_weight_spec w s None 4 false (or_introl eq_refl) Hw Hws Hb)
    as [cw [Hcw [Dc [Sc [Lc Nc]]]]]; [discriminate | ].
  destruct (quantize_weight_range _ _ _ _ _ _ (or_introl eq_refl) Hcw) as [_ Hrange].
  unfold compress_weight. rewrite Hs. cbn [bind fst snd]. rewrite Hcw. cbn [bind].
  cbn [make_decompressor Z.eqb Pos.eqb INT4SymmetricWeightsDecompressor.init bind pack_weight].
  unfold INT4SymmetricWeightsDecompressor.pack_weight. cbn [is_floating_point].
  rewrite (any_outside_int_false (-8) 7 cw Hrange).
  destruct (pack_int4_odd (to_int int8 (TInt cw))) as [msg Hm].
  - cbn [to_int idata]. rewrite length_map, Lc. exact Hodd.
  - rewrite Hm. exists msg. reflexivity.
Qed.

Lemma compress_weight_asym4_odd (w : FloatTensor) (axes : list nat) (td : float_dtype) :
  well_formed w -> reducible w axes = true ->
  Nat.even (numel (keepdims_shape axes (fshape w))) = false ->
  exists msg, compress_weight w axes 4 true td = RuntimeError msg.
Proof.
  intros Hw Hr Hodd.
  destruct (asym_params_spec w axes 4 Hr) as [s [zp [Hs [S1 [Sz [D1 [Dz [L1 [Lz N1]]]]]]]]].
  assert (H04 : 0 <= 4) by lia.
  destruct (asym_params_zero_point_range _ _ _ _ _ H04 Hs) as [_ Hzr].
  assert (Hb : broadcastable (fshape s) (fshape w) = true)
    by (rewrite S1; apply broadcastable_keepdims).
  assert (Hbz : broadcastable (ishape zp) (fshape w) = true)
    by (rewrite Sz; apply broadcastable_keepdims).
  assert (Hws : well_formed s) by (unfold well_formed; congruence).
  destruct (quantize_weight_spec w s (Some zp) 4 true (or_introl eq_refl) Hw Hws Hb)
    as [cw [Hcw _]].
  { intros z Hz. injection Hz as <-. split; [assumption | congruence]. }
  unfold compress_weight. rewrite Hs. cbn [bind fst snd]. rewrite Hcw. cbn [bind].
  cbn [make_decompressor Z.eqb Pos.eqb].
  unfold INT4AsymmetricWeightsDecompressor.init,
         INT4AsymmetricWeightsDecompressor.pack_weight.
  rewrite (any_outside_int_false 0 15 zp Hzr).
  destruct (pack_uint4_odd (to_int uint8 (TInt zp))) as [msg Hm].
  - cbn [to_int idata]. rewrite length_map, Lz. exact Hodd.
  - rewrite Hm. exists msg. reflexivity.
Qed.

(** X8.  In 4-bit mode the pass raises [RuntimeError] on a linear layer
    whose weight has an odd number of elements (symmetric and asymmetric),
    and in asymmetric mode also when the number of channels, that is of zero
    points, is odd: the nibble packer has no padding. *)
Theorem int4_needs_even_counts (dd : float_dtype) (layer : Layer)
        (td : option float_dtype) (qc : bool) (w : FloatTensor) :
  weight layer = TFloat w ->
  well_formed w ->
  in_types (class_name layer) linear_types = true ->
  reducible w (reduction_axes_of (class_name layer) (length (fshape w))) = true ->
  (Nat.even (numel (fshape w)) = false ->
   exists msg, nncf_compress_layer dd layer 4 false td qc = RuntimeError msg)
  /\ (Nat.even (numel (keepdims_shape
                         (reduction_axes_of (class_name layer) (length (fshape w)))
                         (fshape w))) = false ->
      exists msg, nncf_compress_layer dd layer 4 true td qc = RuntimeError msg).
Proof.
  intros Hwt Hwf Hcls Hred.
  set (w32 := mkFloat float32 (fshape w) (fdata w)).
  assert (Hrun : forall asym,
             nncf_compress_layer dd layer 4 asym td qc
             = bind (compress_weight w32
                       (reduction_axes_of (class_name layer) (length (fshape w)))
                       4 asym (working_dtype dd td))
                    (fun r => Ok (mkLayer (class_name layer) (TInt (fst r)) false
                                          (other_parameters layer)
                                          (pre_forward_operations layer ++ [snd r])))).
  { intro asym. rewrite nncf_compress_layer_quantizes by (left; exact Hcls).
    rewrite Hwt. reflexivity. }
  split; intro Hodd.
  - destruct (compress_weight_sym4_odd w32 _ (working_dtype dd td) Hwf Hred Hodd) as [msg Hm].
    exists msg. rewrite Hrun, Hm. reflexivity.
  - destruct (compress_weight_asym4_odd w32 _ (working_dtype dd td) Hwf Hred Hodd) as [msg Hm].
    exists msg. rewrite Hrun, Hm. reflexivity.
Qed.

Lemma int4_needs_even_counts_witness :
  exists msg,
    nncf_compress_layer float16 odd_channels_layer_example 4 true None false
    = RuntimeError msg.
Proof.
  apply (proj2 (int4_needs_even_counts float16 odd_channels_layer_example None false
                  (mkFloat float16 [3; 2]%nat [0; 1; 2; 3; 4; 5]%Q)
                  eq_refl eq_refl eq_refl eq_refl)).
  reflexivity.
Defined.

(** ** The 8-bit packers are casts *)




(** ** Float tensors in the packers without a dtype test *)

Lemma any_outside_float_false (lo hi : Z) (f : FloatTensor) :
  Forall (fun x => (inject_Z lo <= x <= inject_Z hi)%Q) (fdata f) ->
  any_outside lo hi (TFloat f) = false.
Proof.
  intro H. cbn [any_outside]. induction H as [ | x l [H1 H2] Hl IH]; [reflexivity | ].
  cbn [existsb]. rewrite IH, orb_false_r.
  apply Qle_bool_iff in H1, H2. rewrite H1, H2. reflexivity.
Qed.

Lemma Qtrunc_toward_zero (x : Q) :
  ((0 <= x)%Q -> (inject_Z (Qtrunc x) <= x)%Q /\ (x < inject_Z (Qtrunc x) + 1)%Q)
  /\ ((x <= 0)%Q -> (x <= inject_Z (Qtrunc x))%Q /\ (inject_Z (Qtrunc x) - 1 < x)%Q).
Proof.
  unfold Qtrunc. split; intro H.
  - apply Qle_bool_iff in H. rewrite H. split; [apply Qfloor_le | ].
    pose proof (Qlt_floor x) as Hf. rewrite inject_Z_plus in Hf. exact Hf.
  - destruct (Qle_bool 0 x) eqn:E.
    + apply Qle_bool_iff in E.
      assert (Hx : (x == 0)%Q) by (apply Qle_antisym; assumption).
      rewrite (Qfloor_comp x 0 Hx). change (Qfloor 0) with 0. rewrite Hx.
      split; [apply Qle_refl | reflexivity].
    + split; [apply Qle_ceiling | ].
      pose proof (Qceiling_lt x) as Hc.
      unfold Z.sub in Hc. rewrite inject_Z_plus, inject_Z_opp in Hc. exact Hc.
Qed.

(** X10.  [INT8SymmetricWeightsDecompressor.pack_weight] has no dtype test:
    a floating tensor whose values all lie in [[-128, 127]] is accepted, and
    every value is truncated toward zero by the cast to int8, so that a
    fractional part is lost without an error. *)
Theorem int8_symmetric_truncates_floats (f : FloatTensor) :
  Forall (fun x => (inject_Z (-128) <= x <= inject_Z 127)%Q) (fdata f) ->
  INT8SymmetricWeightsDecompressor.pack_weight (TFloat f)
  = Ok (mkInt int8 (fshape f) (map Qtrunc (fdata f)))
  /\ Forall (fun x => -128 <= Qtrunc x <= 127
                      /\ ((0 <= x)%Q ->
                          (inject_Z (Qtrunc x) <= x)%Q /\ (x < inject_Z (Qtrunc x) + 1)%Q)
                      /\ ((x <= 0)%Q ->
                          (x <= inject_Z (Qtrunc x))%Q /\ (inject_Z (Qtrunc x) - 1 < x)%Q))
            (fdata f).
Proof.
  intro H. split.
  - unfold INT8SymmetricWeightsDecompressor.pack_weight.
    rewrite (any_outside_float_false _ _ _ H). cbn [to_int]. f_equal. f_equal.
    apply map_ext_in. intros x Hx. rewrite Forall_forall in H.
    unfold float_to_int. apply clipZ_id. apply Qtrunc_range. exact (H x Hx).
  - eapply Forall_impl; [ | exact H]. intros x Hx. cbn beta in Hx.
    split; [apply Qtrunc_range; exact Hx | apply Qtrunc_toward_zero].
Qed.

Lemma int8_symmetric_truncates_floats_witness :
  INT8SymmetricWeightsDecompressor.pack_weight (TFloat fractional_codes_example)
  = Ok (mkInt int8 [3]%nat [1; -1; 127]).
Proof.
  apply (proj1 (int8_symmetric_truncates_floats fractional_codes_example
                  ltac:(repeat constructor; vm_compute; discriminate))).
Defined.

(** ** Which axes are reduced *)

Lemma keepdims_from_cons (i : nat) (axes : list nat) (d : nat) (r : list nat) :
  keepdims_from i axes (d :: r)
  = (if existsb (Nat.eqb i) axes then 1%nat else d) :: keepdims_from (S i) axes r.
Proof. reflexivity. Qed.

Lemma keepdims_from_last (i : nat) (s : list nat) :
  s <> [] ->
  keepdims_from i [(i + length s - 1)%nat] s = removelast s ++ [1%nat].
Proof.
  revert i. induction s as [ | d r IH]; intros i Hne; [congruence | ].
  rewrite keepdims_from_cons.
  destruct r as [ | e r'].
  - cbn [existsb length removelast app keepdims_from].
    replace (i + 1 - 1)%nat with i by lia. rewrite Nat.eqb_refl. reflexivity.
  - assert (E : existsb (Nat.eqb i) [(i + length (d :: e :: r') - 1)%nat] = false).
    { cbn [existsb]. rewrite orb_false_r. apply Nat.eqb_neq. cbn [length]. lia. }
    rewrite E.
    replace (i + length (d :: e :: r') - 1)%nat with (S i + length (e :: r') - 1)%nat
      by (cbn [length]; lia).
    rewrite IH by discriminate. reflexivity.
Qed.

Lemma nth_keepdims_from (i : nat) (axes s : list nat) (j : nat) :
  (j < length s)%nat ->
  nth j (keepdims_from i axes s) 1%nat
  = if existsb (Nat.eqb (i + j)) axes then 1%nat else nth j s 1%nat.
Proof.
  revert i j. induction s as [ | d r IH]; intros i j Hj; [simpl in Hj; lia | ].
  destruct j as [ | j].
  - cbn [keepdims_from nth]. rewrite Nat.add_0_r. reflexivity.
  - cbn [keepdims_from nth]. rewrite IH by (simpl in Hj; lia).
    replace (S i + j)%nat with (i + S j)%nat by lia. reflexivity.
Qed.

Lemma existsb_axes_except (skip n j : nat) :
  existsb (Nat.eqb j) (axes_except skip n) = (j <? n)%nat && negb (Nat.eqb j skip).
Proof.
  unfold axes_except.
  destruct (existsb (Nat.eqb j) (filter (fun i => negb (Nat.eqb i skip)) (seq 0 n))) eqn:E.
  - apply existsb_exists in E. destruct E as [x [Hin Hx]].
    apply Nat.eqb_eq in Hx. subst x. apply filter_In in Hin. destruct Hin as [Hs Hn].
    apply in_seq in Hs. rewrite Hn.
    assert (Hlt : (j <? n)%nat = true) by (apply Nat.ltb_lt; lia).
    rewrite Hlt. reflexivity.
  - destruct ((j <? n)%nat) eqn:Hlt; [ | reflexivity].
    destruct (Nat.eqb j skip) eqn:Hs; [reflexivity | ].
    exfalso. rewrite <- not_true_iff_false in E. apply E.
    apply existsb_exists. exists j. split; [ | apply Nat.eqb_refl].
    apply filter_In. split; [apply in_seq; apply Nat.ltb_lt in Hlt; lia | rewrite Hs; reflexivity].
Qed.

(** X11.  The axes the pass reduces over, by class, as the scale's shape
    shows them.  For every class that is not a transposed convolution, that
    is for linear layers and, through the [else] of the second test, for
    convolutions as well, only the last axis is reduced: the scale has the
    weight's shape with a 1 in last position.  For a transposed convolution
    every axis but axis 1 is reduced: the scale has size 1 along every axis
    except axis 1, where it has the weight's size. *)
Theorem scale_shape_by_class (cls : string) (s : list nat) :
  s <> [] ->
  (in_types cls conv_transpose_types = false ->
   reduction_axes_of cls (length s) = [(length s - 1)%nat]
   /\ keepdims_shape (reduction_axes_of cls (length s)) s = removelast s ++ [1%nat])
  /\ (in_types cls conv_transpose_types = true ->
      reduction_axes_of cls (length s) = axes_except 1 (length s)
      /\ length (keepdims_shape (reduction_axes_of cls (length s)) s) = length s
      /\ forall j, (j < length s)%nat ->
           nth j (keepdims_shape (reduction_axes_of cls (length s)) s) 1%nat
           = if Nat.eqb j 1 then nth 1 s 1%nat else 1%nat).
Proof.
  intro Hne. unfold reduction_axes_of. split; intro Hc; rewrite Hc.
  - split; [reflexivity | ].
    unfold keepdims_shape. apply (keepdims_from_last 0 s Hne).
  - split; [reflexivity | ]. split; [apply length_keepdims_from | ].
    intros j Hj. unfold keepdims_shape.
    rewrite nth_keepdims_from by exact Hj. cbn [Nat.add].
    rewrite existsb_axes_except.
    assert (Hlt : (j <? length s)%nat = true) by (apply Nat.ltb_lt; exact Hj).
    rewrite Hlt. cbn [andb].
    destruct (Nat.eqb j 1) eqn:E; [ | reflexivity].
    apply Nat.eqb_eq in E. subst j. reflexivity.
Qed.

Lemma scale_shape_by_class_witness :
  keepdims_shape (reduction_axes_of "NNCFConv2d" 4) [8; 4; 3; 3]%nat = [8; 4; 3; 1]%nat
  /\ nth 1 (keepdims_shape (reduction_axes_of "NNCFConvTranspose2d" 4) [8; 4; 3; 3]%nat) 1%nat
     = 4%nat.
Proof.
  split.
  - apply (proj2 (proj1 (scale_shape_by_class "NNCFConv2d" [8; 4; 3; 3]%nat
                           ltac:(discriminate)) eq_refl)).
  - apply (proj2 (proj2 (proj2 (scale_shape_by_class "NNCFConvTranspose2d" [8; 4; 3; 3]%nat
                                  ltac:(discriminate)) eq_refl)) 1%nat ltac:(simpl; lia)).
Defined.

(** ** The deny list of the loading path *)

Lemma split_dots_nonempty (s : string) : split_dots s <> [].
Proof.
  destruct s as [ | c r]; cbn [split_dots]; [discriminate | ].
  destruct (Ascii.eqb c "."); [discriminate | ].
  destruct (split_dots r); discriminate.
Qed.

Lemma split_dots_no_dot (s : string) :
  Forall (fun x => has_dot x = false) (split_dots s).
Proof.
  induction s as [ | c r IH]; cbn [split_dots].
  - constructor; [reflexivity | constructor].
  - destruct (Ascii.eqb c ".") eqn:E.
    + constructor; [reflexivity | exact IH].
    + destruct (split_dots r) as [ | h t].
      * constructor; [cbn [has_dot]; rewrite E; reflexivity | constructor].
      * inversion IH; subst. constructor; [ | assumption].
        cbn [has_dot]. rewrite E. assumption.
Qed.

Lemma split_dots_single (x : string) : has_dot x = false -> split_dots x = [x].
Proof.
  induction x as [ | c r IH]; intro H; [reflexivity | ].
  cbn [has_dot] in H. apply orb_false_iff in H. destruct H as [Hc Hr].
  cbn [split_dots]. rewrite Hc, (IH Hr). reflexivity.
Qed.

Lemma split_dots_cons (x r : string) :
  has_dot x = false ->
  split_dots (x ++ String "." r) = x :: split_dots r.
Proof.
  induction x as [ | c x' IH]; intro H.
  - reflexivity.
  - cbn [has_dot] in H. apply orb_false_iff in H. destruct H as [Hc Hr].
    cbn [String.append split_dots]. rewrite Hc, (IH Hr). reflexivity.
Qed.

Lemma split_join_dots (parts : list string) :
  parts <> [] ->
  Forall (fun x => has_dot x = false) parts ->
  split_dots (join_dots parts) = parts.
Proof.
  induction parts as [ | x rest IH]; intros Hne H; [congruence | ].
  inversion H as [ | ? ? Hx Hrest]; subst.
  destruct rest as [ | y rest'].
  - apply split_dots_single. exact Hx.
  - change (join_dots (x :: y :: rest'))
      with (x ++ String "."%char (join_dots (y :: rest')))%string.
    rewrite split_dots_cons by exact Hx.
    rewrite IH; [reflexivity | discriminate | exact Hrest].
Qed.

Lemma create_quantized_param_branches (dd : float_dtype) (self : NNCFQuantizer)
      (layer : Layer) (tn : string) (pv : FloatTensor) (pn : string) :
  create_quantized_param dd self layer tn pv pn
  = if negb (in_types pn (modules_to_not_convert self))
       && negb (existsb (fun param => in_types param (split_dots pn))
                        (modules_to_not_convert self))
    then nncf_compress_layer dd (set_parameter layer tn pv)
           (num_bits (quantization_config self))
           (is_asym_mode (quantization_config self))
           (Some (torch_dtype self)) false
    else Ok (set_parameter layer tn pv).
Proof. reflexivity. Qed.

(** X12.  The deny list of [create_quantized_param].  A parameter whose
    full name is in [modules_to_not_convert], or one of whose dot-separated
    name components equals an entry, is loaded and not quantized.  Entries
    are compared with whole components only: when every entry contains a dot
    and none equals the full parameter name, the list has no effect and the
    layer goes through [nncf_compress_layer]. *)
Theorem deny_list_matches_name_components (dd : float_dtype) (self : NNCFQuantizer)
        (layer : Layer) (tn : string) (pv : FloatTensor) :
  (forall pn, In pn (modules_to_not_convert self) ->
              create_quantized_param dd self layer tn pv pn = Ok (set_parameter layer tn pv))
  /\ (forall pre m post,
         In m (modules_to_not_convert self) ->
         Forall (fun x => has_dot x = false) (pre ++ m :: post) ->
         create_quantized_param dd self layer tn pv (join_dots (pre ++ m :: post))
         = Ok (set_parameter layer tn pv))
  /\ (forall pn,
         ~ In pn (modules_to_not_convert self) ->
         Forall (fun m => has_dot m = true) (modules_to_not_convert self) ->
         create_quantized_param dd self layer tn pv pn
         = nncf_compress_layer dd (set_parameter layer tn pv)
             (num_bits (quantization_config self))
             (is_asym_mode (quantization_config self))
             (Some (torch_dtype self)) false).
Proof.
  split; [ | split].
  - intros pn Hin. rewrite create_quantized_param_branches.
    apply in_types_In in Hin. rewrite Hin. reflexivity.
  - intros pre m post Hin Hnd. rewrite create_quantized_param_branches.
    rewrite split_join_dots; [ | destruct pre; discriminate | exact Hnd].
    assert (E : existsb (fun param => in_types param (pre ++ m :: post))
                        (modules_to_not_convert self) = true).
    { apply existsb_exists. exists m. split; [exact Hin | ].
      apply in_types_In. apply in_or_app. right. left. reflexivity. }
    rewrite E, andb_false_r. reflexivity.
  - intros pn Hnin Hdots. rewrite create_quantized_param_branches.
    assert (E1 : in_types pn (modules_to_not_convert self) = false).
    { destruct (in_types pn (modules_to_not_convert self)) eqn:E; [ | reflexivity].
      apply in_types_In in E. contradiction. }
    assert (E2 : existsb (fun param => in_types param (split_dots pn))
                         (modules_to_not_convert self) = false).
    { destruct (existsb _ (modules_to_not_convert self)) eqn:E; [ | reflexivity].
      apply existsb_exists in E. destruct E as [m [Hm Hc]].
      apply in_types_In in Hc.
      pose proof (split_dots_no_dot pn) as Hnd. rewrite Forall_forall in Hnd, Hdots.
      specialize (Hnd m Hc). specialize (Hdots m Hm). cbn beta in Hnd, Hdots. congruence. }
    rewrite E1, E2. reflexivity.
Qed.

Lemma deny_list_matches_name_components_witness :
  create_quantized_param float16 deny_quantizer_example linear_layer_example "weight"
    (mkFloat float16 [2; 3]%nat [1; 2; 3; 4; 5; 6]%Q) "blocks.proj_out.weight"
  = Ok (set_parameter linear_layer_example "weight"
          (mkFloat float16 [2; 3]%nat [1; 2; 3; 4; 5; 6]%Q)).
Proof.
  apply (proj1 (proj2 (deny_list_matches_name_components float16 deny_quantizer_example
                         linear_layer_example "weight"
                         (mkFloat float16 [2; 3]%nat [1; 2; 3; 4; 5; 6]%Q)))
           ["blocks"%string] "proj_out"%string ["weight"%string]).
  - left. reflexivity.
  - repeat constructor.
Defined.

(** ** Configuration *)

Lemma weights_dtype_lookup (k wd : string) :
  dict_get k weights_dtype_dict = Some wd ->
  (k = "int8_asym"%string /\ wd = "uint8"%string) \/ (k = "int8_sym"%string /\ wd = "int8"%string)
  \/ (k = "int4_asym"%string /\ wd = "uint4"%string) \/ (k = "int4_sym"%string /\ wd = "int4"%string)
  \/ (k = "int8"%string /\ wd = "uint8"%string) \/ (k = "int4"%string /\ wd = "uint4"%string).
Proof.
  unfold weights_dtype_dict. cbn [dict_get]. intro H.
  repeat match type of H with
         | (if String.eqb ?a ?b then _ else _) = _ =>
             destruct (String.eqb a b) eqn:E;
             [apply String.eqb_eq in E; injection H as <-; tauto | clear E]
         end.
  discriminate.
Qed.

(** X13.  [NNCFConfig.__init__] on any string.  It succeeds exactly when the
    lower-cased name is one of the six keys of [weights_dtype_dict] and
    otherwise raises [KeyError]; in particular [uint8] and [uint4], although
    listed in [accepted_weights], are not accepted as names, and the
    [ValueError] of [post_init] is never raised.  On success [num_bits] is 4
    or 8 and is the width of the target dtype, which exists; the mode is
    symmetric exactly for the two names ending in [_sym], so that the bare
    names [int8] and [int4] select asymmetric quantization. *)
Theorem nncf_config_init_behaviour (name : string) :
  (forall m, NNCFConfig_init name <> InitValueError m)
  /\ ((exists r, NNCFConfig_init name = InitOk r)
      <-> In (lower name) ["int8_asym"; "int8_sym"; "int4_asym"; "int4_sym"; "int8"; "int4"]%string)
  /\ (forall k, NNCFConfig_init name = InitKeyError k ->
                k = lower name
                /\ ~ In k ["int8_asym"; "int8_sym"; "int4_asym"; "int4_sym"; "int8"; "int4"]%string)
  /\ (lower name = "uint8"%string \/ lower name = "uint4"%string ->
      NNCFConfig_init name = InitKeyError (lower name))
  /\ forall wd cfg, NNCFConfig_init name = InitOk (wd, cfg) ->
       In wd accepted_weights
       /\ (num_bits cfg = 4 \/ num_bits cfg = 8)
       /\ (exists t, adjust_target_dtype wd = Some t /\ target_bits t = num_bits cfg)
       /\ (is_asym_mode cfg = false
           <-> lower name = "int8_sym"%string \/ lower name = "int4_sym"%string)
       /\ (is_asym_mode cfg = true <-> wd = "uint8"%string \/ wd = "uint4"%string).
Proof.
  unfold NNCFConfig_init.
  destruct (dict_get (lower name) weights_dtype_dict) as [wd | ] eqn:E.
  - pose proof (weights_dtype_lookup _ _ E) as Hk.
    assert (Hpost : post_init wd = InitOk tt)
      by (destruct Hk as [[_ ->] | [[_ ->] | [[_ ->] | [[_ ->] | [[_ ->] | [_ ->]]]]]];
          reflexivity).
    rewrite Hpost.
    split; [discriminate | ]. split.
    { split; [ | intros _; eexists; reflexivity].
      intros _. destruct Hk as [[-> _] | [[-> _] | [[-> _] | [[-> _] | [[-> _] | [-> _]]]]]];
        simpl; tauto. }
    split; [discriminate | ]. split.
    { intros [H | H]; rewrite H in E; discriminate E. }
    intros wd' cfg H. injection H as <- <-. cbn [num_bits is_asym_mode].
    destruct Hk as [[Hn ->] | [[Hn ->] | [[Hn ->] | [[Hn ->] | [[Hn ->] | [Hn ->]]]]]];
      rewrite Hn; cbn;
      (split; [tauto | ]); (split; [tauto | ]);
      (split; [eexists; split; reflexivity | ]);
      split; split; intro H; try discriminate; try tauto;
      try (destruct H as [H | H]; discriminate).
  - split; [discriminate | ]. split.
    { split; [intros [r Hr]; discriminate | ].
      intro Hin. exfalso. cbn [In] in Hin.
      destruct Hin as [H | [H | [H | [H | [H | [H | []]]]]]]; rewrite <- H in E; discriminate E. }
    split.
    { intros k H. injection H as <-. split; [reflexivity | ].
      intro Hin. cbn [In] in Hin.
      destruct Hin as [H | [H | [H | [H | [H | [H | []]]]]]]; rewrite <- H in E; discriminate E. }
    split; [reflexivity | ].
    intros wd cfg H. discriminate.
Qed.

Lemma nncf_config_init_behaviour_witness :
  NNCFConfig_init "UINT8" = InitKeyError "uint8"
  /\ exists r, NNCFConfig_init "Int8_Sym" = InitOk r.
Proof.
  split.
  - apply (proj1 (proj2 (proj2 (proj2 (nncf_config_init_behaviour "UINT8"))))).
    left. reflexivity.
  - apply (proj2 (proj1 (proj2 (nncf_config_init_behaviour "Int8_Sym")))).
    right. left. reflexivity.
Defined.

(** ** The traversal *)

Lemma Module_nested_ind (P : Module -> Prop) :
  (forall node children,
      Forall (fun p => P (snd p)) children -> P (mkModule node children)) ->
  forall m, P m.
Proof.
  intro H. fix IH 1. intros [node children]. apply H.
  induction children as [ | [name c] rest IHc]; constructor; [apply IH | exact IHc].
Qed.

Lemma for_children_Ok (body : string -> Module -> result Module)
      (cs cs' : list (string * Module)) :
  for_children body cs = Ok cs' <->
  Forall2 (fun p p' => fst p' = fst p /\ body (fst p) (snd p) = Ok (snd p')) cs cs'.
Proof.
  revert cs'. induction cs as [ | [name c] rest IH]; intros cs'.
  - cbn [for_children]. split.
    + intro H. injection H as <-. constructor.
    + intro H. inversion H. reflexivity.
  - cbn [for_children]. split.
    + intro H. apply bind_Ok in H. destruct H as [c' [Hc H]].
      apply bind_Ok in H. destruct H as [rest' [Hr H]]. injection H as <-.
      constructor; [split; [reflexivity | exact Hc] | apply IH; exact Hr].
    + intro H. inversion H as [ | p p' l l' [Hn Hb] Hl]; subst.
      destruct p' as [name' c']. cbn [fst snd] in *. subst name'.
      rewrite Hb. cbn [bind]. apply IH in Hl.
      change ((fix loop (cs : list (string * Module)) : result (list (string * Module)) :=
                 match cs with
                 | [] => Ok []
                 | (name0, module) :: rest0 =>
                     module' <- body name0 module ;;
                     rest' <- loop rest0 ;;
                     Ok ((name0, module') :: rest')
                 end) rest) with (for_children body rest).
      rewrite Hl. reflexivity.
Qed.

Lemma Forall2_nth_error_l {A B : Type} (R : A -> B -> Prop) (l : list A) (l' : list B)
      (i : nat) (x : A) :
  Forall2 R l l' -> nth_error l i = Some x ->
  exists x', nth_error l' i = Some x' /\ R x x'.
Proof.
  intro H. revert i. induction H as [ | a b l l' Hab Hl IH]; intros [ | i] Hi;
    try discriminate.
  - injection Hi as <-. exists b. split; [reflexivity | exact Hab].
  - apply IH. exact Hi.
Qed.

Lemma nncf_compress_layer_class (dd : float_dtype) (layer layer' : Layer) (n : Z)
      (asym : bool) (td : option float_dtype) (qc : bool) :
  nncf_compress_layer dd layer n asym td qc = Ok layer' ->
  class_name layer' = class_name layer.
Proof.
  unfold nncf_compress_layer. intro H.
  destruct (in_types (class_name layer) allowed_types); [ | injection H as <-; reflexivity].
  destruct (in_types (class_name layer) conv_types && (asym || negb qc));
    [injection H as <-; reflexivity | ].
  destruct (in_types (class_name layer) conv_transpose_types && (asym || negb qc));
    [injection H as <-; reflexivity | ].
  apply bind_Ok in H. destruct H as [r [_ H]]. injection H as <-. reflexivity.
Qed.

Lemma compress_node_class (dd : float_dtype) (n : Z) (asym qc : bool) (node node' : Node) :
  compress_node dd n asym qc node = Ok node' -> node_class node' = node_class node.
Proof.
  unfold compress_node. intro H.
  destruct (String.prefix "NNCF" (node_class node)); [ | injection H as <-; reflexivity].
  destruct (node_weight node) as [w | ]; [ | injection H as <-; reflexivity].
  apply bind_Ok in H. destruct H as [l [Hl H]]. injection H as <-.
  apply nncf_compress_layer_class in Hl. exact Hl.
Qed.

Lemma module_at_children (path : list nat) (m m' : Module) :
  path <> [] -> module_children m' = module_children m ->
  module_at path m' = module_at path m.
Proof.
  destruct path as [ | i rest]; [congruence | ]. intros _ H.
  cbn [module_at]. rewrite H. reflexivity.
Qed.

Lemma apply_nncf_to_module_unfold (dd : float_dtype) (n : Z) (asym qc : bool)
      (node : Node) (children : list (string * Module)) :
  apply_nncf_to_module dd n asym qc (mkModule node children)
  = (children' <-
       for_children
         (fun _ module =>
            node' <- compress_node dd n asym qc (module_node module) ;;
            module' <- apply_nncf_to_module dd n asym qc module ;;
            Ok (mkModule node' (module_children module')))
         children ;;
     Ok (mkModule node children')).
Proof. reflexivity. Qed.

Lemma apply_nncf_to_module_sound (dd : float_dtype) (n : Z) (asym qc : bool) (model : Module) :
  forall model',
    apply_nncf_to_module dd n asym qc model = Ok model' ->
    skeleton model' = skeleton model
    /\ module_node model' = module_node model
    /\ forall path m, path <> [] -> module_at path model = Some m ->
         exists m', module_at path model' = Some m'
                    /\ compress_node dd n asym qc (module_node m) = Ok (module_node m').
Proof.
  induction model as [node children IH] using Module_nested_ind.
  intros model' H. rewrite apply_nncf_to_module_unfold in H.
  apply bind_Ok in H. destruct H as [children' [Hc H]]. injection H as <-.
  apply for_children_Ok in Hc.
  split; [ | split; [reflexivity | ]].
  - cbn [skeleton]. f_equal.
    induction Hc as [ | [name c] [name' c''] l l' [Hn Hb] Hl IHl]; [reflexivity | ].
    inversion IH as [ | ? ? IHc IHrest]; subst.
    cbn [fst snd] in *. subst name'.
    apply bind_Ok in Hb. destruct Hb as [node' [Hnode Hb]].
    apply bind_Ok in Hb. destruct Hb as [c' [Hc' Hb]]. injection Hb as <-.
    destruct (IHc c' Hc') as [Hsk _].
    cbn [map fst snd]. rewrite (IHl IHrest). f_equal. f_equal.
    destruct c as [cn cch]. destruct c' as [cn' cch'].
    cbn [skeleton module_node module_children] in *.
    injection Hsk as _ Hch. rewrite Hch, (compress_node_class _ _ _ _ _ _ Hnode).
    reflexivity.
  - intros path m Hne Hat. destruct path as [ | i rest]; [congruence | ].
    cbn [module_at module_children] in Hat |- *.
    destruct (nth_error children i) as [[name c] | ] eqn:Hi; [ | discriminate].
    destruct (Forall2_nth_error_l _ _ _ _ _ Hc Hi) as [[name' c''] [Hi' [Hn Hb]]].
    cbn [fst snd] in *. subst name'. rewrite Hi'.
    apply bind_Ok in Hb. destruct Hb as [node' [Hnode Hb]].
    apply bind_Ok in Hb. destruct Hb as [c' [Hc' Hb]]. injection Hb as <-.
    rewrite Forall_forall in IH.
    specialize (IH (name, c) (nth_error_In _ _ Hi) c' Hc'). cbn [snd] in IH.
    destruct IH as [_ [_ IHp]].
    destruct rest as [ | j rest'].
    + cbn [module_at] in Hat |- *. injection Hat as <-.
      eexists. split; [reflexivity | ]. exact Hnode.
    + rewrite (module_at_children (j :: rest') c' (mkModule node' (module_children c')))
        by (discriminate || reflexivity).
      apply IHp; [discriminate | exact Hat].
Qed.

Lemma for_children_total (body : string -> Module -> result Module)
      (cs : list (string * Module)) :
  Forall (fun p => exists m', body (fst p) (snd p) = Ok m') cs ->
  exists cs', for_children body cs = Ok cs'.
Proof.
  intro H. induction H as [ | [name c] rest [m' Hm] Hrest [rest' IH]].
  - exists []. reflexivity.
  - exists ((name, m') :: rest'). apply for_children_Ok.
    constructor; [split; [reflexivity | exact Hm] | apply for_children_Ok; exact IH].
Qed.

Lemma apply_nncf_to_module_complete (dd : float_dtype) (n : Z) (asym qc : bool)
      (model : Module) :
  (forall path m, path <> [] -> module_at path model = Some m ->
                  is_Ok (compress_node dd n asym qc (module_node m)) = true) ->
  exists model', apply_nncf_to_module dd n asym qc model = Ok model'.
Proof.
  induction model as [node children IH] using Module_nested_ind.
  intro Hall. rewrite apply_nncf_to_module_unfold.
  destruct (for_children_total
              (fun _ module =>
                 node' <- compress_node dd n asym qc (module_node module) ;;
                 module' <- apply_nncf_to_module dd n asym qc module ;;
                 Ok (mkModule node' (module_children module')))
              children) as [children' Hc].
  - rewrite Forall_forall in IH |- *. intros [name c] Hin. cbn [fst snd].
    destruct (In_nth_error _ _ Hin) as [i Hi].
    assert (Hnode : is_Ok (compress_node dd n asym qc (module_node c)) = true).
    { apply (Hall [i] c); [discriminate | ]. cbn [module_at module_children].
      rewrite Hi. reflexivity. }
    destruct (compress_node dd n asym qc (module_node c)) as [node' | | ]; try discriminate.
    destruct (IH (name, c) Hin) as [c' Hc'].
    { intros path m Hne Hat. apply (Hall (i :: path) m); [discriminate | ].
      cbn [module_at module_children]. rewrite Hi. exact Hat. }
    cbn [snd] in Hc'. cbn [bind]. rewrite Hc'. eexists. reflexivity.
  - rewrite Hc. eexists. reflexivity.
Qed.

(** X14.  [apply_nncf_to_module] on a tree of modules.  When it returns, the
    graph has the same structure (children, their names and class names),
    the root itself is untouched, and every module below the root holds
    exactly what [nncf_compress_layer] made of it if its class name starts
    with [NNCF] and it has a weight, and is unchanged otherwise, so that a
    plain [Linear] is never quantized by the traversal.  It returns whenever
    [nncf_compress_layer] succeeds on each such module; the first exception
    aborts the traversal. *)
Theorem traversal_quantizes_nncf_descendants (dd : float_dtype) (n : Z) (asym qc : bool)
        (model : Module) :
  (forall model',
      apply_nncf_to_module dd n asym qc model = Ok model' ->
      skeleton model' = skeleton model
      /\ module_node model' = module_node model
      /\ forall path m, path <> [] -> module_at path model = Some m ->
           exists m', module_at path model' = Some m'
             /\ compress_node dd n asym qc (module_node m) = Ok (module_node m')
             /\ (String.prefix "NNCF" (node_class (module_node m)) = false
                 \/ node_weight (module_node m) = None ->
                 module_node m' = module_node m)
             /\ (forall w, String.prefix "NNCF" (node_class (module_node m)) = true ->
                           node_weight (module_node m) = Some w ->
                           exists l,
                             nncf_compress_layer dd
                               (mkLayer (node_class (module_node m)) w
                                        (node_requires_grad (module_node m))
                                        (node_others (module_node m))
                                        (node_ops (module_node m)))
                               n asym (Some dd) qc = Ok l
                             /\ module_node m' = node_of_layer l))
  /\ ((forall path m, path <> [] -> module_at path model = Some m ->
                      is_Ok (compress_node dd n asym qc (module_node m)) = true) ->
      exists model', apply_nncf_to_module dd n asym qc model = Ok model').
Proof.
  split; [ | apply apply_nncf_to_module_complete].
  intros model' H.
  destruct (apply_nncf_to_module_sound dd n asym qc model model' H) as [Hsk [Hroot Hp]].
  split; [exact Hsk | split; [exact Hroot | ]].
  intros path m Hne Hat. destruct (Hp path m Hne Hat) as [m' [Hat' Hc]].
  exists m'. split; [exact Hat' | split; [exact Hc | split]].
  - intros Hskip. unfold compress_node in Hc. destruct Hskip as [Hpre | Hw].
    + rewrite Hpre in Hc. injection Hc as <-. reflexivity.
    + rewrite Hw in Hc.
      destruct (String.prefix "NNCF" (node_class (module_node m)));
        injection Hc as <-; reflexivity.
  - intros w Hpre Hw. unfold compress_node in Hc. rewrite Hpre, Hw in Hc.
    apply bind_Ok in Hc. destruct Hc as [l [Hl Hc]]. injection Hc as <-.
    exists l. split; [exact Hl | reflexivity].
Qed.

Lemma traversal_quantizes_nncf_descendants_witness :
  module_node sample_model_quantized = module_node sample_model
  /\ skeleton sample_model_quantized = skeleton sample_model.
Proof.
  assert (H : apply_nncf_to_module float16 8 false false sample_model
              = Ok sample_model_quantized) by (vm_compute; reflexivity).
  destruct (proj1 (traversal_quantizes_nncf_descendants float16 8 false false sample_model)
                  sample_model_quantized H) as [Hsk [Hroot _]].
  split; assumption.
Defined.

(** ** The dominant extreme in symmetric mode *)




(** ** The deny list before loading *)




(** ** Two evaluations *)

(** A linear layer with weight [[-1, 1]], 8 bits, symmetric: the scale is
    [1/128], the code of 1 is clipped from 128 to 127, and the rebuilt value
    [127/128] is off by a whole step. *)
Example clipped_code_is_off_by_a_step :
  result_map weight
    (l <- nncf_compress_layer float16 balanced_layer_example 8 false None false ;;
     run_pre_forward l)
  = Ok (TFloat (mkFloat float16 [1; 2]%nat [-128 # 128; 127 # 128]%Q))
  /\ result_map (fun l => map decompressor_scale (pre_forward_operations l))
       (nncf_compress_layer float16 balanced_layer_example 8 false None false)
     = Ok [mkFloat float32 [1; 1]%nat [1 # 128]%Q]
  /\ ~ (Qabs ((127 # 128) - 1) <= Qabs (1 # 128) * (1 # 2))%Q.
Proof.
  split; [vm_compute; reflexivity | split; [vm_compute; reflexivity | ]].
  vm_compute. intro H. apply H. reflexivity.
Qed.

(** A linear layer of rank 2 reduces over axis 1, the last one; axis 0 is
    what is left when the last axis is excluded. *)
Example linear_reduces_last_axis :
  reduction_axes_of "Linear" 2 = [1%nat] /\ axes_except 1 2 = [0%nat].
Proof. split; reflexivity. Qed.
